(** * django_mqtt: topic matching and ACL resolution

    A shallow embedding of [django_mqtt/models.py]: the [Topic] model with
    its overloaded comparison operators, the candidate prefilter, and the
    [ACL] model with rule resolution ([get_acl]), the default policy
    ([get_default]) and permission evaluation ([has_permission]).

    Python [str] values are modelled as [string]; database tables as lists
    of rows in the order the database returns them; exceptions as the
    [Raise] case of [result]. *)

From Stdlib Require Import String Ascii List ZArith Bool Arith Lia.
Import ListNotations.
Open Scope string_scope.
Open Scope bool_scope.

(** ** Exceptions *)

Inductive exn : Type :=
| ValidationError
| DoesNotExist
| MultipleObjectsReturned
| DatabaseError
| ValueError
| TypeError.

Inductive result (A : Type) : Type :=
| Ok (a : A)
| Raise (e : exn).
Arguments Ok {A} a.
Arguments Raise {A} e.

(** ** The constants of [django_mqtt.protocol] *)

Module Protocol.

(** Modelled from the spec: the constants of [django_mqtt/protocol.py],
    which is not among the sources.  The segment separator is [/]. *)
Definition TOPIC_SEP : ascii := "/"%char.

(** Modelled from the spec: the multi-level wildcard is [#]. *)
Definition WILDCARD_MULTI_LEVEL : ascii := "#"%char.

(** Modelled from the spec: the single-level wildcard is [+]. *)
Definition WILDCARD_SINGLE_LEVEL : ascii := "+"%char.

(** Modelled from the spec: a system topic begins with [$]. *)
Definition TOPIC_BEGINNING_DOLLAR : ascii := "$"%char.

(** A one-character Python string. *)
Definition str (c : ascii) : string := String c EmptyString.

End Protocol.

(** ** The Python [str] operations the models use *)

Module PyStr.

(** [s.startswith(p)] *)
Fixpoint startswith (p s : string) : bool :=
  match p, s with
  | EmptyString, _ => true
  | String _ _, EmptyString => false
  | String a p', String b s' => Ascii.eqb a b && startswith p' s'
  end.

(** [s.endswith(p)]: [p] is a suffix of [s]. *)
Fixpoint endswith (p s : string) : bool :=
  String.eqb s p ||
  match s with
  | EmptyString => false
  | String _ s' => endswith p s'
  end.

(** [p in s]: [p] occurs in [s] as a substring. *)
Fixpoint str_in (p s : string) : bool :=
  startswith p s ||
  match s with
  | EmptyString => false
  | String _ s' => str_in p s'
  end.

(** [s.split(sep)] for a one-character separator: never empty, and
    [''.split(sep) == ['']]. *)
Fixpoint split (sep : ascii) (s : string) : list string :=
  match s with
  | EmptyString => [EmptyString]
  | String c s' =>
      if Ascii.eqb c sep then EmptyString :: split sep s'
      else match split sep s' with
           | [] => [String c EmptyString]
           | h :: t => String c h :: t
           end
  end.

(** [sep.join(parts)] (used in proofs only: the inverse of [split]). *)
Fixpoint join (sep : ascii) (parts : list string) : string :=
  match parts with
  | [] => EmptyString
  | [p] => p
  | p :: rest => p ++ String sep (join sep rest)
  end.

(** [s[:-1]] *)
Fixpoint drop_last (s : string) : string :=
  match s with
  | EmptyString => EmptyString
  | String _ EmptyString => EmptyString
  | String c s' => String c (drop_last s')
  end.

(** [parts[1:-1]] *)
Definition interior (parts : list string) : list string :=
  removelast (tl parts).

End PyStr.

(** ** [class Topic] *)

Module Topic.
Import Protocol PyStr.

(** A [Topic] instance: the primary key is [None] until the row is
    inserted; [wildcard] and [dollar] are the stored flag columns. *)
Record t : Type := mk {
  pk : option Z;
  name : string;
  wildcard : bool;
  dollar : bool
}.

(** The values the overloaded operators accept.  A [bytes] value is given
    by the text it decodes to. *)
Inductive obj : Type :=
| Obj_Topic (o : t)
| Obj_str (s : string)
| Obj_bytes (decoded : string)
| Obj_other.

(** [Topic(name=s)]: an unsaved instance with the field defaults. *)
Definition of_name (s : string) : t := mk None s false false.

(** The [comp] of [__lt__] and [__contains__]; [None] is Python's [None]. *)
Definition as_topic (other : obj) : option t :=
  match other with
  | Obj_Topic o => Some o
  | Obj_str s => Some (of_name s)
  | Obj_bytes s => Some (of_name s)
  | Obj_other => None
  end.

Definition __eq__ (self : t) (other : obj) : bool :=
  match other with
  | Obj_Topic o => String.eqb (name self) (name o)
  | Obj_str s => String.eqb (name self) s
  | Obj_bytes s => String.eqb (name self) s
  | Obj_other => false
  end.

Definition __len__ (self : t) : nat := String.length (name self).

(** Truth value of an instance: the class defines [__len__] and no
    [__bool__], so a topic with an empty name is falsy. *)
Definition truth (self : t) : bool := negb (__len__ self =? 0)%nat.

Definition is_wildcard (self : t) : bool :=
  str_in (str WILDCARD_MULTI_LEVEL) (name self)
  || str_in (str WILDCARD_SINGLE_LEVEL) (name self).

Definition is_dollar (self : t) : bool :=
  startswith (str TOPIC_BEGINNING_DOLLAR) (name self).

(** The [for part in my_parts] loop of [__contains__]; [comp_wild] is
    [comp.is_wildcard()].  The size test before the loop keeps [next] from
    running out of [comp_parts]. *)
Fixpoint walk (comp_wild : bool) (my_parts comp_parts : list string) : bool :=
  match my_parts with
  | [] => true
  | part :: my_rest =>
      match comp_parts with
      | [] => false
      | compare :: comp_rest =>
          if String.eqb part (str WILDCARD_SINGLE_LEVEL) then
            if comp_wild && String.eqb compare (str WILDCARD_MULTI_LEVEL)
            then false
            else walk comp_wild my_rest comp_rest
          else if String.eqb part (str WILDCARD_MULTI_LEVEL) then true
          else if negb (String.eqb part compare) then false
          else walk comp_wild my_rest comp_rest
      end
  end.

(** [item in self]: the filter [self] covers [item]. *)
Definition __contains__ (self : t) (item : obj) : bool :=
  match as_topic item with
  | None => false
  | Some comp =>
      if negb (truth comp) then false
      else if __eq__ self (Obj_Topic comp) then true
      else if negb (is_wildcard self) then false
      else if (is_dollar self && negb (is_dollar comp))
              || (is_dollar comp && negb (is_dollar self)) then false
      else
        let my_parts := split TOPIC_SEP (name self) in
        let comp_parts := split TOPIC_SEP (name comp) in
        if is_dollar self
           && negb (String.eqb (hd "" my_parts) (hd "" comp_parts)) then false
        else
          let comp_size := List.length comp_parts in
          if (comp_size <? List.length my_parts)%nat then false
          else if negb (endswith (str WILDCARD_MULTI_LEVEL) (name self))
                  && (List.length my_parts <? comp_size)%nat then false
          else walk (is_wildcard comp) my_parts comp_parts
  end.

Definition __lt__ (self : t) (other : obj) : bool :=
  match as_topic other with
  | None => false
  | Some comp =>
      if negb (truth comp) || negb (is_wildcard comp) then false
      else __contains__ comp (Obj_Topic self)
  end.

(** In the [str] branch the source calls [Topic(other)]: the positional
    argument lands in the first field (the key), the name stays empty. *)
Definition __gt__ (self : t) (other : obj) : bool :=
  if negb (is_wildcard self) then false
  else match other with
       | Obj_Topic o => __contains__ self (Obj_Topic o)
       | Obj_str _ => __contains__ self (Obj_Topic (of_name ""))
       | Obj_bytes s => __contains__ self (Obj_Topic (of_name s))
       | Obj_other => false
       end.

(** *** The model manager: [Topic.objects] is the table, a list of rows. *)

Definition get_candidates (objects : list t) (self : t) : list t :=
  let candidates :=
    filter (fun c => Bool.eqb (dollar c) (is_dollar self) && negb (wildcard c))
           objects in
  let multi := endswith (str WILDCARD_MULTI_LEVEL) (name self) in
  let topic := if multi then drop_last (name self) else name self in
  let parts := split WILDCARD_SINGLE_LEVEL topic in
  if (List.length parts =? 1)%nat then
    if negb (String.length topic =? 0)%nat
    then filter (fun c => startswith topic (name c)) candidates
    else candidates
  else if String.eqb topic (str WILDCARD_SINGLE_LEVEL) then
    filter (fun c => negb (str_in (str TOPIC_SEP) (name c))) candidates
  else
    let candidates :=
      if multi
      then filter (fun c => startswith (hd "" parts) (name c)
                            && str_in (last parts "") (name c)) candidates
      else filter (fun c => startswith (hd "" parts) (name c)
                            && endswith (last parts "") (name c)) candidates in
    fold_left (fun cs part => filter (fun c => str_in part (name c)) cs)
              (nodup string_dec (interior parts)) candidates.

(** [list(iter(self))] *)
Definition __iter__ (objects : list t) (self : t) : list t :=
  if negb (is_wildcard self) then [self]
  else filter (fun candidate => __contains__ self (Obj_Topic candidate))
              (get_candidates objects self).

Section Save.

(** [TopicValidator] of [django_mqtt.validators], which is not among the
    sources: any predicate on names. *)
Variable TopicValidator : string -> bool.

Definition pk_is (k : Z) (row : t) : bool :=
  match pk row with
  | Some k' => Z.eqb k k'
  | None => false
  end.

Definition same_pk (a b : t) : bool :=
  match pk a with
  | Some k => pk_is k b
  | None => false
  end.

(** [full_clean()] on the declared fields: [name] is
    [CharField(max_length=1024, validators=[TopicValidator()], unique=True,
    blank=False)]. *)
Definition full_clean (objects : list t) (self : t) : bool :=
  negb (String.length (name self) =? 0)%nat
  && (String.length (name self) <=? 1024)%nat
  && TopicValidator (name self)
  && forallb (fun row => same_pk self row
                         || negb (String.eqb (name row) (name self))) objects.

Definition next_pk (objects : list t) : Z :=
  1 + fold_right (fun row m => match pk row with
                               | Some k => Z.max k m
                               | None => m
                               end) 0%Z objects.

Definition field_in (f : string) (fields : list string) : bool :=
  existsb (String.eqb f) fields.

(** [UPDATE] of the listed columns of the row keyed like [self]. *)
Definition update_row (fields : list string) (self row : t) : t :=
  if same_pk self row then
    mk (pk row)
       (if field_in "name" fields then name self else name row)
       (if field_in "wildcard" fields then wildcard self else wildcard row)
       (if field_in "dollar" fields then dollar self else dollar row)
  else row.

(** [models.Model.save]: an empty [update_fields] list returns at once; a
    non-empty one updates those columns of the existing row; otherwise the
    row with this key is replaced, or a new row is inserted. *)
Definition model_save (objects : list t) (self : t)
    (update_fields : option (list string)) : result (t * list t) :=
  match update_fields with
  | Some [] => Ok (self, objects)
  | Some fields =>
      match pk self with
      | None => Raise ValueError
      | Some _ =>
          if existsb (same_pk self) objects
          then Ok (self, map (update_row fields self) objects)
          else Raise DatabaseError
      end
  | None =>
      if existsb (same_pk self) objects
      then Ok (self, map (fun row => if same_pk self row then self else row)
                         objects)
      else let saved := mk (Some (match pk self with
                                  | Some k => k
                                  | None => next_pk objects
                                  end))
                           (name self) (wildcard self) (dollar self) in
           Ok (saved, (objects ++ [saved])%list)
  end.

(** [SecureSave.save] *)
Definition secure_save (objects : list t) (self : t)
    (update_fields : option (list string)) : result (t * list t) :=
  if full_clean objects self then model_save objects self update_fields
  else Raise ValidationError.

(** [not update_fields or f in update_fields] *)
Definition recompute (f : string) (update_fields : option (list string)) : bool :=
  match update_fields with
  | None => true
  | Some [] => true
  | Some fields => field_in f fields
  end.

(** [Topic.save]: the instance after the call and the table after it. *)
Definition save (objects : list t) (self : t)
    (update_fields : option (list string)) : result (t * list t) :=
  let self := if recompute "wildcard" update_fields
              then mk (pk self) (name self) (is_wildcard self) (dollar self)
              else self in
  let self := if recompute "dollar" update_fields
              then mk (pk self) (name self) (wildcard self) (is_dollar self)
              else self in
  secure_save objects self update_fields.

(** [Topic.objects.get(name=n)] *)
Definition objects_get (objects : list t) (n : string) : result t :=
  match filter (fun row => String.eqb (name row) n) objects with
  | [] => Raise DoesNotExist
  | [row] => Ok row
  | _ => Raise MultipleObjectsReturned
  end.

(** [Topic.objects.get_or_create(name=n)]: the pair [(topic, is_new)] and
    the table afterwards. *)
Definition get_or_create (objects : list t) (n : string)
    : result (t * bool) * list t :=
  match objects_get objects n with
  | Ok row => (Ok (row, false), objects)
  | Raise DoesNotExist =>
      match save objects (of_name n) None with
      | Ok (created, objects') => (Ok (created, true), objects')
      | Raise e => (Raise e, objects)
      end
  | Raise e => (Raise e, objects)
  end.

End Save.

End Topic.

(** ** [class ACL] *)

Module ACL.
Import Protocol PyStr.

Definition PROTO_MQTT_ACC_SUS : Z := 1.
Definition PROTO_MQTT_ACC_PUB : Z := 2.
Definition PROTO_MQTT_ACC : list Z := [PROTO_MQTT_ACC_SUS; PROTO_MQTT_ACC_PUB].

(** A user as the methods see it: [AnonymousUser] has no key and no
    groups; [None] for "no user" is [option]'s [None]. *)
Record User : Type := mkUser {
  user_pk : option Z;
  user_groups : list Z;
  is_anonymous : bool
}.

(** An [ACL] instance with its [topic] foreign key dereferenced; [users]
    and [groups] hold the keys of the related rows. *)
Record t : Type := mk {
  pk : Z;
  allow : bool;
  topic : Topic.t;
  acc : Z;
  users : list Z;
  groups : list Z;
  password : option string
}.

(** The two tables the classmethods read and write. *)
Record Store : Type := mkStore {
  topics : list Topic.t;
  rules : list t
}.

(** The settings attributes [get_default] looks for; [None] when
    [hasattr] fails. *)
Record Settings : Type := mkSettings {
  MQTT_ACL_ALLOW : option bool;
  MQTT_ACL_ALLOW_ANONIMOUS : option bool
}.

(** Truth value of an optional string: [None] and [''] are falsy. *)
Definition str_truth (s : option string) : bool :=
  match s with
  | Some (String _ _) => true
  | _ => false
  end.

Definition is_public (self : t) : bool :=
  (List.length (users self) =? 0)%nat
  && (List.length (groups self) =? 0)%nat
  && negb (str_truth (password self)).

(** [user in self.users.all()]: model equality is equality of keys. *)
Definition user_in_users (self : t) (user : User) : bool :=
  match user_pk user with
  | Some k => existsb (Z.eqb k) (users self)
  | None => false
  end.

(** [self.groups.filter(pk__in=user.groups.values_list('pk')).exists()] *)
Definition group_match (self : t) (user : User) : bool :=
  existsb (fun g => existsb (Z.eqb g) (user_groups user)) (groups self).

Section Hashers.

(** [django.contrib.auth.hashers.check_password (raw, encoded)] *)
Variable check_password : string -> string -> bool.

Definition has_permission (self : t) (user : option User)
    (password_ : option string) : bool :=
  if is_public self then allow self
  else
    let allow_ :=
      match user with
      | Some u =>
          if user_in_users self u then allow self
          else if group_match self u then allow self
          else negb (allow self)
      | None => false
      end in
    match password self, password_ with
    | Some (String c h), Some (String c' raw) =>
        check_password (String c' raw) (String c h)
    | _, _ => allow_
    end.

(** Rows of the rule table selected by [filter(topic=topic)]: the
    foreign key equals the key of a saved topic. *)
Definition on_topic (topic_ : Topic.t) (rule : t) : bool :=
  Topic.same_pk topic_ (topic rule).

Definition get_default (settings : Settings) (store : Store) (acc_ : Z)
    (user : option User) (password_ : option string) : result bool :=
  let allow_ := match MQTT_ACL_ALLOW settings with
                | Some a => a
                | None => false
                end in
  let anonymous := match user with
                   | None => true
                   | Some u => is_anonymous u
                   end in
  let allow_ := match MQTT_ACL_ALLOW_ANONIMOUS settings with
                | Some a => if anonymous then a && allow_ else allow_
                | None => allow_
                end in
  let returns_early :=
    match MQTT_ACL_ALLOW_ANONIMOUS settings with
    | Some _ => anonymous && negb allow_ && negb (str_truth password_)
    | None => false
    end in
  if returns_early then Ok allow_
  else
      match Topic.objects_get (topics store) (str WILDCARD_MULTI_LEVEL) with
      | Raise DoesNotExist => Ok allow_
      | Raise e => Raise e
      | Ok broadcast_topic =>
          let broadcast := filter (on_topic broadcast_topic) (rules store) in
          if existsb (Z.eqb acc_) PROTO_MQTT_ACC then
            match filter (fun r => Z.eqb (acc r) acc_) broadcast with
            | [] => Ok allow_
            | [broadcast_acl] =>
                Ok (has_permission broadcast_acl user password_)
            | _ => Raise MultipleObjectsReturned
            end
          else Ok allow_
      end.

End Hashers.

Definition __lt__ (self other : t) : bool :=
  Topic.__lt__ (topic self) (Topic.Obj_Topic (topic other)).

Definition __gt__ (self other : t) : bool :=
  Topic.__gt__ (topic self) (Topic.Obj_Topic (topic other)).

(** The builtin [min] over a non-empty list: the first element is kept
    until a later one compares [<] the one kept. *)
Definition py_min {A : Type} (lt : A -> A -> bool) (first : A) (rest : list A) : A :=
  fold_left (fun kept item => if lt item kept then item else kept) rest first.

(** [ACL.objects.get(topic=topic, acc=acc)] *)
Definition objects_get (store : Store) (topic_ : Topic.t) (acc_ : Z) : result t :=
  match filter (fun r => on_topic topic_ r && Z.eqb (acc r) acc_) (rules store) with
  | [] => Raise DoesNotExist
  | [r] => Ok r
  | _ => Raise MultipleObjectsReturned
  end.

(** [cls.objects.filter(topic__wildcard=True, acc=acc)] *)
Definition wildcard_rules (store : Store) (acc_ : Z) : list t :=
  filter (fun r => Topic.wildcard (topic r) && Z.eqb (acc r) acc_) (rules store).

(** The wildcard rules whose topic covers [topic_]: the [candidates] list
    built in the [except ACL.DoesNotExist] branch. *)
Definition covering (store : Store) (topic_ : Topic.t) (acc_ : Z) : list t :=
  filter (fun candidate => Topic.__contains__ (topic candidate) (Topic.Obj_Topic topic_))
         (wildcard_rules store acc_).

(** The body of [get_acl] from [candidates = []] on, [topic] being a
    [Topic] instance. *)
Definition resolve (store : Store) (topic_ : Topic.t) (acc_ : Z) : result (option t) :=
  match objects_get store topic_ acc_ with
  | Raise DoesNotExist =>
      match covering store topic_ acc_ with
      | [] => Ok None
      | first :: rest => Ok (Some (py_min __lt__ first rest))
      end
  | Raise e => Raise e
  | Ok r => Ok (Some r)
  end.

Section GetAcl.

Variable TopicValidator : string -> bool.

(** [get_acl]: the store after the call and what the call returns or
    raises.  In the [bytes] branch the pair returned by [get_or_create] is
    bound to [topic] unpacked, and the rule lookup keyed on a pair raises. *)
Definition get_acl (store : Store) (topic_ : Topic.obj) (acc_ : Z)
    : Store * result (option t) :=
  match topic_ with
  | Topic.Obj_str s =>
      match Topic.get_or_create TopicValidator (topics store) s with
      | (Ok (found, _), topics') =>
          let store' := mkStore topics' (rules store) in
          (store', resolve store' found acc_)
      | (Raise e, topics') => (mkStore topics' (rules store), Raise e)
      end
  | Topic.Obj_bytes s =>
      match Topic.get_or_create TopicValidator (topics store) s with
      | (Ok _, topics') => (mkStore topics' (rules store), Raise TypeError)
      | (Raise e, topics') => (mkStore topics' (rules store), Raise e)
      end
  | Topic.Obj_Topic o => (store, resolve store o acc_)
  | Topic.Obj_other => (store, Raise ValueError)
  end.

End GetAcl.

End ACL.

(** ** The topic grammar and the store invariants *)

Module Invariants.
Import Protocol PyStr.

(** A segment without wildcard characters. *)
Definition plain (part : string) : bool :=
  negb (str_in (str WILDCARD_MULTI_LEVEL) part)
  && negb (str_in (str WILDCARD_SINGLE_LEVEL) part).

(** Modelled from the spec: the invariant of a valid topic name, enforced
    by [TopicValidator] of [django_mqtt.validators], which is not among the
    sources: [#] only as the last segment, [+] occupies a whole segment. *)
Fixpoint grammar (parts : list string) : bool :=
  match parts with
  | [] => true
  | part :: rest =>
      match rest with
      | [] => String.eqb part (str WILDCARD_SINGLE_LEVEL)
              || String.eqb part (str WILDCARD_MULTI_LEVEL)
              || plain part
      | _ :: _ => (String.eqb part (str WILDCARD_SINGLE_LEVEL) || plain part)
                  && grammar rest
      end
  end.

Definition TopicGrammar (name : string) : bool :=
  grammar (split TOPIC_SEP name).

(** The stored flag columns agree with the name they are derived from. *)
Definition flags_consistent (row : Topic.t) : Prop :=
  Topic.wildcard row = Topic.is_wildcard row
  /\ Topic.dollar row = Topic.is_dollar row.

(** The rule table refers to topics that obey the grammar and carry
    consistent flags. *)
Definition rules_wellformed (store : ACL.Store) : Prop :=
  forall rule, In rule (ACL.rules store) ->
    TopicGrammar (Topic.name (ACL.topic rule)) = true
    /\ flags_consistent (ACL.topic rule).

(** The key of [unique_together = ('topic', 'acc')]. *)
Definition rule_key (rule : ACL.t) : option Z * Z :=
  (Topic.pk (ACL.topic rule), ACL.acc rule).

Definition unique_together (store : ACL.Store) : Prop :=
  NoDup (map rule_key (ACL.rules store)).

(** A rule whose principal set (users and groups) is not empty. *)
Definition has_principals (rule : ACL.t) : Prop :=
  ACL.users rule <> [] \/ ACL.groups rule <> [].

(** Membership of a user in the principal set of a rule, by key or by a
    common group. *)
Definition belongs (rule : ACL.t) (user : ACL.User) : bool :=
  ACL.user_in_users rule user || ACL.group_match rule user.

(** The instance of the prefilter: [t] is [ps] with a string put between
    consecutive parts and, for a multi-level filter, a string appended. *)
Fixpoint Inst (ps : list string) (multi : bool) (t : string) : Prop :=
  match ps with
  | [] => False
  | p :: ps' =>
      match ps' with
      | [] => if multi then exists rest, t = p ++ rest else t = p
      | _ :: _ => exists s t', t = p ++ s ++ t' /\ Inst ps' multi t'
      end
  end.

(** The filter name without its trailing [#], from its segments. *)
Fixpoint body (parts : list string) : string :=
  match parts with
  | [] => EmptyString
  | part :: rest =>
      match rest with
      | [] => if String.eqb part (str WILDCARD_MULTI_LEVEL)
              then EmptyString else part
      | _ :: _ => part ++ String TOPIC_SEP (body rest)
      end
  end.

(** The conditions [get_candidates] puts on a stored name, as one test:
    the prefix before the first [+], the suffix after the last one (anywhere
    in the name for a multi-level filter) and every part in between. *)
Definition prefilter (self : Topic.t) (candidate : string) : bool :=
  let multi := endswith (str WILDCARD_MULTI_LEVEL) (Topic.name self) in
  let topic := if multi then drop_last (Topic.name self) else Topic.name self in
  let parts := split WILDCARD_SINGLE_LEVEL topic in
  if (List.length parts =? 1)%nat then
    if negb (String.length topic =? 0)%nat then startswith topic candidate else true
  else if String.eqb topic (str WILDCARD_SINGLE_LEVEL) then
    negb (str_in (str TOPIC_SEP) candidate)
  else
    startswith (hd "" parts) candidate
    && (if multi then str_in (last parts "") candidate
        else endswith (last parts "") candidate)
    && forallb (fun part => str_in part candidate) (interior parts).

(** Whether the last segment is the multi-level wildcard. *)
Definition ends_multi (parts : list string) : bool :=
  String.eqb (last parts "") (str WILDCARD_MULTI_LEVEL).

(** The rows [get_candidates] starts from: the stored flags say "not a
    wildcard" and "of the dollar class of the filter". *)
Definition same_class (self row : Topic.t) : bool :=
  Bool.eqb (Topic.dollar row) (Topic.is_dollar self) && negb (Topic.wildcard row).

End Invariants.

(** ** Concrete stores *)

Module Examples.
Import Invariants.

Definition SUS := ACL.PROTO_MQTT_ACC_SUS.
Definition PUB := ACL.PROTO_MQTT_ACC_PUB.

(** A validator that accepts the names obeying the grammar. *)
Definition grammar_validator : string -> bool := TopicGrammar.

Definition a_b : Topic.t := Topic.mk (Some 1%Z) "a/b" false false.
Definition a_plus : Topic.t := Topic.mk (Some 2%Z) "a/+" true false.
Definition plus_b : Topic.t := Topic.mk (Some 3%Z) "+/b" true false.
Definition a_hash : Topic.t := Topic.mk (Some 4%Z) "a/#" true false.
Definition hash : Topic.t := Topic.mk (Some 5%Z) "#" true false.
Definition a_c_d : Topic.t := Topic.mk (Some 6%Z) "a/c/d" false false.
Definition sys_x : Topic.t := Topic.mk (Some 7%Z) "$SYS/x" false true.
Definition t_topic : Topic.t := Topic.mk (Some 8%Z) "t" false false.

Definition rule_a_plus : ACL.t := ACL.mk 1 true a_plus SUS [] [] None.
Definition rule_plus_b : ACL.t := ACL.mk 2 false plus_b SUS [] [] None.
Definition rule_a_hash : ACL.t := ACL.mk 3 true a_hash SUS [] [] None.
Definition rule_a_b : ACL.t := ACL.mk 4 false a_b SUS [] [] None.
Definition rule_hash : ACL.t := ACL.mk 5 true hash SUS [] [] None.

(** Two rules, neither more specific than the other, both covering [a/b]. *)
Definition store_incomparable : ACL.Store :=
  ACL.mkStore [a_b; a_plus; plus_b] [rule_a_plus; rule_plus_b].

(** A chain [#], [a/#], [a/+] of ever narrower rules. *)
Definition store_chain : ACL.Store :=
  ACL.mkStore [a_b; a_plus; a_hash; hash] [rule_hash; rule_a_plus; rule_a_hash].

(** The rules of the resolution scenario: [a/#] allows, [a/b] denies. *)
Definition store_scenario : ACL.Store :=
  ACL.mkStore [a_b; a_hash] [rule_a_hash; rule_a_b].

Definition store_empty : ACL.Store := ACL.mkStore [] [].

Definition table : list Topic.t := [a_b; a_plus; a_c_d; sys_x; t_topic].

(** [table] after saving the key-1 row under the name [a/+/#]. *)
Definition table_saved : list Topic.t :=
  [Topic.mk (Some 1%Z) "a/+/#" true false; a_plus; a_c_d; sys_x; t_topic].


Definition stale_row : Topic.t := Topic.mk (Some 1%Z) "a/+/#" false true.
Definition fresh_row : Topic.t := Topic.mk (Some 1%Z) "a/+/#" true false.

Definition user42 : ACL.User := ACL.mkUser (Some 42%Z) [7%Z] false.
Definition user7 : ACL.User := ACL.mkUser (Some 7%Z) [] false.
Definition user9 : ACL.User := ACL.mkUser (Some 9%Z) [3%Z] false.

(** The rule of the inversion scenario: topic [t], principal set
    [{user42}] and group 3, [allow=true], no secret. *)
Definition rule_t : ACL.t := ACL.mk 6 true t_topic PUB [42%Z] [3%Z] None.

Definition deny_all : ACL.Settings := ACL.mkSettings (Some false) (Some false).

End Examples.

(** ** [class ClientId] *)

Module ClientId.
Import PyStr.

(** A [ClientId] instance; [users] and [groups] hold the keys of the
    related rows, which [save] does not write. *)
Record t : Type := mk {
  pk : option Z;
  name : string;
  users : list Z;
  groups : list Z
}.

Definition is_public (self : t) : bool :=
  (List.length (users self) =? 0)%nat && (List.length (groups self) =? 0)%nat.

(** [self.users.filter(pk=user.pk)], as a truth value. *)
Definition user_listed (self : t) (user : ACL.User) : bool :=
  match ACL.user_pk user with
  | Some k => existsb (Z.eqb k) (users self)
  | None => false
  end.

(** [self.groups.filter(pk__in=user.groups.all().values_list('pk')).count()] *)
Definition shared_groups (self : t) (user : ACL.User) : nat :=
  List.length (filter (fun g => existsb (Z.eqb g) (ACL.user_groups user))
                      (groups self)).

Definition has_permission (self : t) (user : option ACL.User) : bool :=
  if negb (is_public self) then
    match user with
    | Some u =>
        if user_listed self u then true
        else if (0 <? shared_groups self u)%nat then true
        else is_public self
    | None => is_public self
    end
  else is_public self.

(** [hasattr(settings, 'MQTT_ALLOW_EMPTY_CLIENT_ID') and
    settings.MQTT_ALLOW_EMPTY_CLIENT_ID]; the setting is [None] when the
    attribute is missing.  This is also the module constant
    [ALLOW_EMPTY_CLIENT_ID]. *)
Definition empty_allowed (setting : option bool) : bool :=
  match setting with
  | Some allowed => allowed
  | None => false
  end.

(** [clean]: [false] when it raises [ValidationError]. *)
Definition clean (setting : option bool) (self : t) : bool :=
  negb (negb (empty_allowed setting) && String.eqb (name self) "").

Section Save.

(** [ClientIdValidator(valid_empty=...)] of [django_mqtt.validators], which
    is not among the sources: any predicate on names, given the flag. *)
Variable ClientIdValidator : bool -> string -> bool.

Definition same_pk (a b : t) : bool :=
  match pk a, pk b with
  | Some k, Some k' => Z.eqb k k'
  | _, _ => false
  end.

(** [full_clean()]: [name] is [CharField(max_length=23, blank=True,
    unique=True, validators=[ClientIdValidator(...)])], so an empty name
    skips the field validators; then [clean()], then uniqueness. *)
Definition full_clean (setting : option bool) (objects : list t) (self : t) : bool :=
  (String.eqb (name self) ""
   || (String.length (name self) <=? 23)%nat
      && ClientIdValidator (empty_allowed setting) (name self))
  && clean setting self
  && forallb (fun row => same_pk self row
                         || negb (String.eqb (name row) (name self))) objects.

Definition next_pk (objects : list t) : Z :=
  1 + fold_right (fun row m => match pk row with
                               | Some k => Z.max k m
                               | None => m
                               end) 0%Z objects.

(** The row keyed like [self] after an [UPDATE] of the listed columns;
    [name] is the only column besides the key. *)
Definition update_row (fields : list string) (self row : t) : t :=
  if same_pk self row then
    mk (pk row)
       (if existsb (String.eqb "name") fields then name self else name row)
       (users row) (groups row)
  else row.

(** [models.Model.save], as for [Topic]. *)
Definition model_save (objects : list t) (self : t)
    (update_fields : option (list string)) : result (t * list t) :=
  match update_fields with
  | Some [] => Ok (self, objects)
  | Some fields =>
      match pk self with
      | None => Raise ValueError
      | Some _ =>
          if existsb (same_pk self) objects
          then Ok (self, map (update_row fields self) objects)
          else Raise DatabaseError
      end
  | None =>
      if existsb (same_pk self) objects
      then Ok (self, map (update_row ["name"] self) objects)
      else let saved := mk (Some (match pk self with
                                  | Some k => k
                                  | None => next_pk objects
                                  end))
                           (name self) (users self) (groups self) in
           Ok (saved, (objects ++ [saved])%list)
  end.

(** [SecureSave.save] on a [ClientId]. *)
Definition save (setting : option bool) (objects : list t) (self : t)
    (update_fields : option (list string)) : result (t * list t) :=
  if full_clean setting objects self then model_save objects self update_fields
  else Raise ValidationError.

End Save.

End ClientId.

(** ** Invariants of the tables *)

Module Tables.

(** The [unique=True] of [Topic.name] together with the primary key: no
    two rows share a name, no two rows share a key. *)
Definition topics_unique (objects : list Topic.t) : Prop :=
  NoDup (map Topic.name objects) /\ NoDup (map Topic.pk objects).

(** The default decision of [get_default] before the broadcast rule is
    looked at: [MQTT_ACL_ALLOW], and for an anonymous principal also
    [MQTT_ACL_ALLOW_ANONIMOUS] when that setting exists. *)
Definition default_allow (settings : ACL.Settings) (user : option ACL.User) : bool :=
  let allow_ := match ACL.MQTT_ACL_ALLOW settings with
                | Some a => a
                | None => false
                end in
  let anonymous := match user with
                   | None => true
                   | Some u => ACL.is_anonymous u
                   end in
  match ACL.MQTT_ACL_ALLOW_ANONIMOUS settings with
  | Some a => if anonymous then a && allow_ else allow_
  | None => allow_
  end.

(** A principal [get_default] treats as anonymous. *)
Definition anonymous (user : option ACL.User) : bool :=
  match user with
  | None => true
  | Some u => ACL.is_anonymous u
  end.

End Tables.

(** ** More concrete data *)

Module Samples.

Definition sport : Topic.t := Topic.mk (Some 1%Z) "sport/tennis" false false.
Definition sport_plus : Topic.t := Topic.mk (Some 2%Z) "sport/+" true false.
Definition sport_hash : Topic.t := Topic.mk (Some 3%Z) "sport/#" true false.
Definition plus_plus : Topic.t := Topic.mk (Some 4%Z) "+/+" true false.
Definition all_topics : Topic.t := Topic.mk (Some 5%Z) "#" true false.

Definition topic_table : list Topic.t := [sport; sport_plus; sport_hash].

Definition rule_sport_hash : ACL.t :=
  ACL.mk 1 true sport_hash ACL.PROTO_MQTT_ACC_PUB [] [] None.
Definition rule_broadcast : ACL.t :=
  ACL.mk 2 true all_topics ACL.PROTO_MQTT_ACC_PUB [] [] None.
Definition rule_secret : ACL.t :=
  ACL.mk 3 false sport ACL.PROTO_MQTT_ACC_PUB [42%Z] [] (Some "hash").

Definition store_sport : ACL.Store :=
  ACL.mkStore [sport; sport_plus; sport_hash] [rule_sport_hash].
Definition store_broadcast : ACL.Store :=
  ACL.mkStore [sport; all_topics] [rule_broadcast].

Definition alice : ACL.User := ACL.mkUser (Some 42%Z) [7%Z] false.
Definition bob : ACL.User := ACL.mkUser (Some 7%Z) [8%Z] false.
Definition nobody : ACL.User := ACL.mkUser None [] true.

Definition client_private : ClientId.t := ClientId.mk (Some 1%Z) "sensor-1" [42%Z] [8%Z].
Definition client_table : list ClientId.t := [client_private].

(** A hasher check that accepts the raw secret ["pw"] only. *)
Definition only_pw (raw encoded : string) : bool := String.eqb raw "pw".

End Samples.

(** * Facts about the string operations *)

Section StrFacts.
Import Protocol PyStr.

Lemma append_nil_r (s : string) : s ++ "" = s.
Proof. induction s as [|c s IH]; simpl; [reflexivity | now rewrite IH]. Qed.

Lemma append_assoc (a b c : string) : (a ++ b) ++ c = a ++ (b ++ c).
Proof. induction a as [|x a IH]; simpl; [reflexivity | now rewrite IH]. Qed.

Lemma split_not_nil (sep : ascii) (s : string) : split sep s <> [].
Proof.
  destruct s as [|c s]; simpl; [discriminate|].
  destruct (Ascii.eqb c sep); [discriminate|].
  destruct (split sep s); discriminate.
Qed.

Lemma split_cons (sep : ascii) (s : string) :
  split sep s = hd "" (split sep s) :: tl (split sep s).
Proof.
  destruct (split sep s) eqn:E; [now destruct (split_not_nil sep s)|reflexivity].
Qed.

Lemma join_cons (sep : ascii) (p : string) (rest : list string) :
  rest <> [] -> join sep (p :: rest) = p ++ String sep (join sep rest).
Proof. destruct rest; [congruence | reflexivity]. Qed.

Lemma join_split (sep : ascii) (s : string) : join sep (split sep s) = s.
Proof.
  induction s as [|c s IH]; [reflexivity|].
  simpl. destruct (Ascii.eqb_spec c sep) as [->|N].
  - rewrite join_cons by apply split_not_nil. simpl. now rewrite IH.
  - destruct (split sep s) as [|h t] eqn:E; [now destruct (split_not_nil sep s)|].
    destruct t as [|h' t].
    + simpl in *. now rewrite IH.
    + change (join sep (String c h :: h' :: t))
        with (String c (h ++ String sep (join sep (h' :: t)))).
      change (join sep (h :: h' :: t))
        with (h ++ String sep (join sep (h' :: t))) in IH.
      now rewrite IH.
Qed.

Lemma split_inj (sep : ascii) (a b : string) : split sep a = split sep b -> a = b.
Proof.
  intros E. rewrite <- (join_split sep a), <- (join_split sep b). now rewrite E.
Qed.

Lemma str_in_char (c a : ascii) (s : string) :
  str_in (str c) (String a s) = Ascii.eqb c a || str_in (str c) s.
Proof. simpl. now rewrite andb_true_r. Qed.

Lemma str_in_char_app (c : ascii) (a b : string) :
  str_in (str c) (a ++ b) = str_in (str c) a || str_in (str c) b.
Proof.
  induction a as [|x a IH].
  - reflexivity.
  - change (String x a ++ b) with (String x (a ++ b)).
    rewrite !str_in_char, IH. now rewrite orb_assoc.
Qed.

Lemma str_in_char_nil (c : ascii) : str_in (str c) "" = false.
Proof. reflexivity. Qed.

(** A name has a single segment exactly when the separator is not in it. *)
Lemma split_single (sep : ascii) (s : string) :
  (List.length (split sep s) =? 1)%nat = negb (str_in (str sep) s).
Proof.
  induction s as [|c s IH]; [reflexivity|].
  rewrite str_in_char. simpl split.
  rewrite (Ascii.eqb_sym sep c).
  destruct (Ascii.eqb c sep).
  - simpl. destruct (split sep s) eqn:E;
      [now destruct (split_not_nil sep s) | reflexivity].
  - simpl orb. rewrite <- IH.
    destruct (split sep s) eqn:E; [now destruct (split_not_nil sep s)|].
    reflexivity.
Qed.

Lemma split_free (sep : ascii) (s : string) :
  str_in (str sep) s = false -> split sep s = [s].
Proof.
  intros F.
  assert (L : (List.length (split sep s) =? 1)%nat = true)
    by (rewrite split_single, F; reflexivity).
  apply Nat.eqb_eq in L.
  pose proof (join_split sep s) as J.
  destruct (split sep s) as [|h [|h' t]]; simpl in L; try discriminate.
  simpl in J. now subst.
Qed.

Lemma split_app_free (sep : ascii) (a b : string) :
  str_in (str sep) a = false ->
  split sep (a ++ b) = (a ++ hd "" (split sep b)) :: tl (split sep b).
Proof.
  induction a as [|x a IH]; intros F.
  - simpl. apply split_cons.
  - rewrite str_in_char in F. apply orb_false_iff in F as [Fx Fa].
    change (String x a ++ b) with (String x (a ++ b)).
    simpl split. rewrite Ascii.eqb_sym, Fx, (IH Fa). reflexivity.
Qed.

Lemma split_sep_cons (sep : ascii) (b : string) :
  split sep (String sep b) = "" :: split sep b.
Proof. simpl. now rewrite Ascii.eqb_refl. Qed.

Lemma startswith_app (p r : string) : startswith p (p ++ r) = true.
Proof.
  induction p as [|c p IH]; [reflexivity|].
  simpl. now rewrite Ascii.eqb_refl, IH.
Qed.

Lemma str_in_here (p r : string) : str_in p (p ++ r) = true.
Proof.
  destruct p as [|c p]; [now destruct r|].
  change (String c p ++ r) with (String c (p ++ r)).
  cbn [str_in]. change (String c (p ++ r)) with (String c p ++ r).
  now rewrite startswith_app.
Qed.

Lemma str_in_app_l (p a s : string) : str_in p s = true -> str_in p (a ++ s) = true.
Proof.
  intros H. induction a as [|c a IH]; [exact H|].
  change (String c a ++ s) with (String c (a ++ s)).
  cbn [str_in]. rewrite IH. apply orb_true_r.
Qed.

Lemma str_in_app (a p b : string) : str_in p (a ++ p ++ b) = true.
Proof. apply str_in_app_l, str_in_here. Qed.

Lemma endswith_refl (p : string) : endswith p p = true.
Proof. destruct p; [reflexivity|]. cbn [endswith]. now rewrite String.eqb_refl. Qed.

Lemma endswith_app_l (p a s : string) : endswith p s = true -> endswith p (a ++ s) = true.
Proof.
  intros H. induction a as [|c a IH]; [exact H|].
  change (String c a ++ s) with (String c (a ++ s)).
  cbn [endswith]. rewrite IH. apply orb_true_r.
Qed.

Lemma endswith_app (a p : string) : endswith p (a ++ p) = true.
Proof. apply endswith_app_l, endswith_refl. Qed.

Lemma endswith_str_in (p s : string) : endswith p s = true -> str_in p s = true.
Proof.
  induction s as [|c s IH]; cbn [endswith str_in]; intros H.
  - rewrite orb_false_r in H. apply String.eqb_eq in H. now subst.
  - apply orb_true_iff in H as [H|H].
    + apply String.eqb_eq in H. rewrite <- H.
      rewrite <- (append_nil_r (String c s)) at 2.
      now rewrite startswith_app.
    + rewrite (IH H). apply orb_true_r.
Qed.

(** For a one-character suffix only the end of the string matters. *)
Lemma endswith_char_app (c : ascii) (a b : string) :
  b <> "" -> endswith (str c) (a ++ b) = endswith (str c) b.
Proof.
  intros N. induction a as [|x a IH]; [reflexivity|].
  change (String x a ++ b) with (String x (a ++ b)).
  cbn [endswith]. rewrite IH.
  replace (String x (a ++ b) =? str c) with false; [reflexivity|].
  symmetry. apply String.eqb_neq. unfold str. intros E. inversion E as [[E1 E2]].
  destruct a; simpl in E2; [congruence | discriminate].
Qed.

Lemma drop_last_app (a b : string) : b <> "" -> drop_last (a ++ b) = a ++ drop_last b.
Proof.
  intros N. induction a as [|x a IH]; [reflexivity|].
  change (String x a ++ b) with (String x (a ++ b)).
  cbn [drop_last]. rewrite IH.
  destruct (a ++ b) eqn:E; [|reflexivity].
  destruct a; simpl in E; [congruence | discriminate].
Qed.

End StrFacts.

(** * Facts about [Topic.__contains__] *)

Section CoversFacts.
Import Protocol PyStr Topic.

(** The operator reads nothing but the two names. *)
Lemma contains_names (self self' comp comp' : t) :
  name self = name self' -> name comp = name comp' ->
  __contains__ self (Obj_Topic comp) = __contains__ self' (Obj_Topic comp').
Proof.
  destruct self, self', comp, comp'. simpl. intros -> ->. reflexivity.
Qed.

Lemma contains_str (self : t) (s : string) :
  __contains__ self (Obj_str s) = __contains__ self (Obj_Topic (of_name s)).
Proof. reflexivity. Qed.

Lemma truth_nonempty (self : t) : truth self = true <-> name self <> "".
Proof.
  unfold truth, __len__. destruct (name self); simpl; split; congruence.
Qed.

Lemma wildcard_truth (self : t) : is_wildcard self = true -> truth self = true.
Proof.
  unfold is_wildcard, truth, __len__. destruct (name self); [discriminate | reflexivity].
Qed.

(** Equal names are covered whenever the name is not empty. *)
Lemma contains_same_name (self comp : t) :
  name self = name comp -> name comp <> "" ->
  __contains__ self (Obj_Topic comp) = true.
Proof.
  intros E N. unfold __contains__. cbn [as_topic].
  apply truth_nonempty in N. rewrite N. cbn [negb __eq__].
  rewrite E, String.eqb_refl. reflexivity.
Qed.

(** What a positive answer between different names went through. *)
Lemma contains_inv (self comp : t) :
  __contains__ self (Obj_Topic comp) = true ->
  name self <> name comp ->
  is_wildcard self = true
  /\ truth comp = true
  /\ is_dollar self = is_dollar comp
  /\ (List.length (split TOPIC_SEP (name self))
      <= List.length (split TOPIC_SEP (name comp)))%nat
  /\ (endswith (str WILDCARD_MULTI_LEVEL) (name self) = false ->
      List.length (split TOPIC_SEP (name comp))
      = List.length (split TOPIC_SEP (name self)))
  /\ walk (is_wildcard comp) (split TOPIC_SEP (name self))
          (split TOPIC_SEP (name comp)) = true.
Proof.
  unfold __contains__. cbn [as_topic __eq__]. intros H N.
  destruct (truth comp); cbn [negb] in H; [|discriminate].
  apply String.eqb_neq in N. rewrite N in H.
  destruct (is_wildcard self); simpl in H; [|discriminate].
  destruct (is_dollar self) eqn:Ds, (is_dollar comp) eqn:Dc; simpl in H;
    try discriminate.
  - destruct (hd "" (split TOPIC_SEP (name self))
              =? hd "" (split TOPIC_SEP (name comp))); simpl in H; [|discriminate].
    destruct (Nat.ltb_spec (List.length (split TOPIC_SEP (name comp)))
                           (List.length (split TOPIC_SEP (name self))));
      [discriminate|].
    destruct (endswith (str WILDCARD_MULTI_LEVEL) (name self)); simpl in H.
    + repeat split; auto. discriminate.
    + destruct (Nat.ltb_spec (List.length (split TOPIC_SEP (name self)))
                             (List.length (split TOPIC_SEP (name comp))));
        [discriminate|].
      repeat split; auto. intros _. lia.
  - destruct (Nat.ltb_spec (List.length (split TOPIC_SEP (name comp)))
                           (List.length (split TOPIC_SEP (name self))));
      [discriminate|].
    destruct (endswith (str WILDCARD_MULTI_LEVEL) (name self)); simpl in H.
    + repeat split; auto. discriminate.
    + destruct (Nat.ltb_spec (List.length (split TOPIC_SEP (name self)))
                             (List.length (split TOPIC_SEP (name comp))));
        [discriminate|].
      repeat split; auto. intros _. lia.
Qed.

(** Each [+] segment of the filter stops the walk at a [#] segment of a
    wildcard topic, unless a [#] segment of the filter ended it before. *)
Lemma walk_plus_hash (i : nat) : forall my_parts comp_parts,
  nth_error my_parts i = Some (str WILDCARD_SINGLE_LEVEL) ->
  nth_error comp_parts i = Some (str WILDCARD_MULTI_LEVEL) ->
  (forall j, (j < i)%nat -> nth_error my_parts j <> Some (str WILDCARD_MULTI_LEVEL)) ->
  walk true my_parts comp_parts = false.
Proof.
  induction i as [|i IH]; intros [|part my_rest] [|compare comp_rest] Hm Hc Hj;
    simpl in Hm, Hc; try discriminate.
  - injection Hm as ->. injection Hc as ->. reflexivity.
  - cbn [walk].
    assert (T : walk true my_rest comp_rest = false).
    { apply IH; auto. intros j Lj. apply (Hj (S j)). lia. }
    rewrite T.
    destruct (part =? str WILDCARD_SINGLE_LEVEL).
    + now destruct (true && (compare =? str WILDCARD_MULTI_LEVEL)).
    + destruct (String.eqb_spec part (str WILDCARD_MULTI_LEVEL)) as [->|_].
      * exfalso. apply (Hj 0%nat); [lia | reflexivity].
      * now destruct (negb (part =? compare)).
Qed.

End CoversFacts.

(** * Topic matching *)

Section Matching.
Import Protocol PyStr Topic.

(** C2, as stated, fails: the filter [a/#] does not cover [a], because
    the size test rejects a topic with fewer segments than the filter. *)
Lemma C2_counterexample_parent_level :
  __contains__ (of_name "a/#") (Obj_str "a") = false.
Proof. reflexivity. Qed.

(** A compared topic with fewer segments than the filter is covered
    only when the names are equal. *)
Lemma fewer_segments_not_covered (self comp : t) :
  name self <> name comp ->
  (List.length (split TOPIC_SEP (name comp))
   < List.length (split TOPIC_SEP (name self)))%nat ->
  __contains__ self (Obj_Topic comp) = false.
Proof.
  intros N L.
  destruct (__contains__ self (Obj_Topic comp)) eqn:C; [|reflexivity].
  destruct (contains_inv _ _ C N) as (_ & _ & _ & L' & _). lia.
Qed.

(** C2 (amended): whatever their keys and stored flags, the filter [a/#]
    covers [a/b] and [a/b/c], and covers neither [a] nor [b/a]; a topic
    with fewer segments than the filter, such as [a], is never covered
    unless the names are equal. *)
Theorem C2_hash_suffix_filter :
  (forall k w d k' w' d',
    let filter_ := mk k "a/#" w d in
    __contains__ filter_ (Obj_Topic (mk k' "a/b" w' d')) = true
    /\ __contains__ filter_ (Obj_Topic (mk k' "a/b/c" w' d')) = true
    /\ __contains__ filter_ (Obj_Topic (mk k' "a" w' d')) = false
    /\ __contains__ filter_ (Obj_Topic (mk k' "b/a" w' d')) = false
    /\ __contains__ filter_ (Obj_str "a/b") = true
    /\ __contains__ filter_ (Obj_str "a/b/c") = true
    /\ __contains__ filter_ (Obj_str "a") = false
    /\ __contains__ filter_ (Obj_str "b/a") = false)
  /\ (forall self comp : t,
      name self <> name comp ->
      (List.length (split TOPIC_SEP (name comp))
       < List.length (split TOPIC_SEP (name self)))%nat ->
      __contains__ self (Obj_Topic comp) = false).
Proof.
  split.
  - intros. repeat split; reflexivity.
  - apply fewer_segments_not_covered.
Qed.

Lemma C2_hash_suffix_filter_witness :
  __contains__ (of_name "sport/tennis/#") (Obj_Topic (of_name "sport/tennis")) = false.
Proof.
  apply (proj2 C2_hash_suffix_filter); [discriminate | simpl; lia].
Defined.

(** The lone [#] covers a topic as soon as its name is neither empty nor
    dollar-prefixed. *)
Lemma hash_covers (self comp : t) :
  name self = str WILDCARD_MULTI_LEVEL ->
  name comp <> "" -> is_dollar comp = false ->
  __contains__ self (Obj_Topic comp) = true.
Proof.
  intros E N D.
  rewrite (contains_names self (of_name "#") comp comp E eq_refl).
  unfold __contains__. cbn [as_topic __eq__].
  apply truth_nonempty in N. rewrite N. cbn [negb].
  destruct (name (of_name "#") =? name comp); [reflexivity|].
  rewrite D.
  change (is_wildcard (of_name "#")) with true.
  change (is_dollar (of_name "#")) with false.
  change (split TOPIC_SEP (name (of_name "#"))) with ["#"].
  change (endswith (str WILDCARD_MULTI_LEVEL) (name (of_name "#"))) with true.
  cbn [negb andb orb].
  rewrite (split_cons TOPIC_SEP (name comp)). reflexivity.
Qed.

(** Across the dollar classes only equal names are covered. *)
Lemma dollar_classes_apart (self comp : t) :
  name self <> name comp ->
  is_dollar self = negb (is_dollar comp) ->
  __contains__ self (Obj_Topic comp) = false.
Proof.
  intros N D.
  destruct (__contains__ self (Obj_Topic comp)) eqn:C; [|reflexivity].
  destruct (contains_inv _ _ C N) as (_ & _ & E & _).
  rewrite E in D. now destruct (is_dollar comp).
Qed.

(** C4: the filter [#] covers every topic whose name is not dollar-prefixed
    (a topic name being a non-empty string), whatever the number of its
    segments; when exactly one of the filter and the compared topic is
    dollar-prefixed and their names differ, the answer is false; so [#]
    does not cover [$SYS/x]. *)
Theorem C4_hash_and_dollar :
  (forall self comp : t,
      name self = "#" -> name comp <> "" -> is_dollar comp = false ->
      __contains__ self (Obj_Topic comp) = true)
  /\ (forall self comp : t,
      name self <> name comp ->
      is_dollar self = negb (is_dollar comp) ->
      __contains__ self (Obj_Topic comp) = false)
  /\ (forall self comp : t,
      name self = "#" -> name comp = "$SYS/x" ->
      __contains__ self (Obj_Topic comp) = false).
Proof.
  split; [|split].
  - intros self comp E. now apply hash_covers.
  - apply dollar_classes_apart.
  - intros self comp E1 E2. apply dollar_classes_apart.
    + rewrite E1, E2. discriminate.
    + unfold is_dollar. rewrite E1, E2. reflexivity.
Qed.

Lemma C4_hash_and_dollar_witness :
  __contains__ (of_name "#") (Obj_Topic (of_name "a/b/c")) = true
  /\ __contains__ (of_name "$SYS/#") (Obj_Topic (of_name "a/b")) = false
  /\ __contains__ (of_name "#") (Obj_Topic (of_name "$SYS/x")) = false.
Proof.
  destruct C4_hash_and_dollar as (H1 & H2 & H3).
  split; [|split].
  - apply H1; [reflexivity | discriminate | reflexivity].
  - apply H2; [discriminate | reflexivity].
  - apply H3; reflexivity.
Defined.

(** The guard on the truth value of the compared topic: a topic with an
    empty name is covered by nothing, not even by an equal name. *)
Lemma empty_name_not_covered (self comp : t) :
  name comp = "" -> __contains__ self (Obj_Topic comp) = false.
Proof.
  intros E. unfold __contains__. cbn [as_topic].
  unfold truth, __len__. rewrite E. reflexivity.
Qed.

(** The lone [+] against a non-dollar, non-empty name other than [#]. *)
Lemma plus_covers (self comp : t) :
  name self = str WILDCARD_SINGLE_LEVEL ->
  name comp <> "" -> is_dollar comp = false ->
  name comp <> str WILDCARD_MULTI_LEVEL ->
  __contains__ self (Obj_Topic comp) = negb (str_in (str TOPIC_SEP) (name comp)).
Proof.
  intros E N D NH.
  rewrite (contains_names self (of_name "+") comp comp E eq_refl).
  unfold __contains__. cbn [as_topic __eq__].
  apply truth_nonempty in N. rewrite N. cbn [negb].
  destruct (String.eqb_spec (name (of_name "+")) (name comp)) as [Eq|Ne].
  - rewrite <- Eq. reflexivity.
  - rewrite D.
    change (is_wildcard (of_name "+")) with true.
    change (is_dollar (of_name "+")) with false.
    change (split TOPIC_SEP (name (of_name "+"))) with ["+"].
    change (endswith (str WILDCARD_MULTI_LEVEL) (name (of_name "+"))) with false.
    cbn [negb andb orb List.length].
    rewrite <- split_single.
    pose proof (join_split TOPIC_SEP (name comp)) as J.
    destruct (split TOPIC_SEP (name comp)) as [|seg [|seg' rest]] eqn:S.
    + now destruct (split_not_nil TOPIC_SEP (name comp)).
    + simpl in J. subst seg. cbn.
      apply String.eqb_neq in NH. rewrite NH.
      now rewrite andb_false_r.
    + reflexivity.
Qed.

(** C5, as stated, fails: [$SYS] is a single segment without separator,
    and the lone [+] does not cover it; nor does it cover the single
    segment [#]. *)
Lemma C5_counterexample_single_segment :
  str_in (str TOPIC_SEP) "$SYS" = false
  /\ __contains__ (of_name "+") (Obj_str "$SYS") = false
  /\ str_in (str TOPIC_SEP) "#" = false
  /\ __contains__ (of_name "+") (Obj_str "#") = false.
Proof. repeat split; reflexivity. Qed.

(** C5 (amended): among the non-empty names that are neither
    dollar-prefixed nor the lone [#], the filter [+] covers exactly those
    without a separator; [a/+/c] covers [a/b/c] and covers neither
    [a/b/b/c] nor [a/c]; and when the compared topic is a wildcard, a
    filter with a [+] segment facing a [#] segment of the topic, no [#]
    segment of the filter standing before it, does not cover the topic. *)
Theorem C5_single_level_wildcard :
  (forall self comp : t,
      name self = "+" -> name comp <> "" -> is_dollar comp = false ->
      name comp <> "#" ->
      (__contains__ self (Obj_Topic comp) = true
       <-> str_in (str TOPIC_SEP) (name comp) = false))
  /\ (forall k w d k' w' d',
      __contains__ (mk k "a/+/c" w d) (Obj_Topic (mk k' "a/b/c" w' d')) = true
      /\ __contains__ (mk k "a/+/c" w d) (Obj_Topic (mk k' "a/b/b/c" w' d')) = false
      /\ __contains__ (mk k "a/+/c" w d) (Obj_Topic (mk k' "a/c" w' d')) = false)
  /\ (forall (self comp : t) (i : nat),
      is_wildcard comp = true ->
      nth_error (split TOPIC_SEP (name self)) i = Some "+" ->
      nth_error (split TOPIC_SEP (name comp)) i = Some "#" ->
      (forall j, (j < i)%nat ->
                 nth_error (split TOPIC_SEP (name self)) j <> Some "#") ->
      __contains__ self (Obj_Topic comp) = false)
  /\ (forall my_rest comp_rest,
      walk true ("+" :: my_rest) ("#" :: comp_rest) = false).
Proof.
  split; [|split; [|split]].
  - intros self comp E N D NH.
    rewrite (plus_covers self comp E N D NH).
    destruct (str_in (str TOPIC_SEP) (name comp)); simpl; split; congruence.
  - intros. repeat split; reflexivity.
  - intros self comp i W Hs Hc Hj.
    destruct (__contains__ self (Obj_Topic comp)) eqn:C; [|reflexivity].
    assert (N : name self <> name comp).
    { intros E. rewrite E in Hs. rewrite Hs in Hc. discriminate. }
    destruct (contains_inv _ _ C N) as (_ & _ & _ & _ & _ & Wk).
    rewrite W in Wk.
    rewrite (walk_plus_hash i _ _ Hs Hc Hj) in Wk. discriminate.
  - reflexivity.
Qed.

Lemma C5_single_level_wildcard_witness :
  (__contains__ (of_name "+") (Obj_Topic (of_name "abc")) = true
   <-> str_in (str TOPIC_SEP) "abc" = false)
  /\ __contains__ (of_name "a/+") (Obj_Topic (of_name "a/#")) = false.
Proof.
  destruct C5_single_level_wildcard as (H1 & _ & H3 & _).
  split.
  - apply (H1 (of_name "+") (of_name "abc"));
      [reflexivity | discriminate | reflexivity | discriminate].
  - apply (H3 (of_name "a/+") (of_name "a/#") 1%nat);
      [reflexivity | reflexivity | reflexivity |].
    intros j Lj. assert (j = 0%nat) as -> by lia. discriminate.
Defined.

End Matching.

(** * Permission evaluation and the default policy *)

Section Permission.
Import Protocol PyStr Invariants.

Variable check_password : string -> string -> bool.
Variable TopicValidator : string -> bool.

Lemma not_public (rule : ACL.t) : has_principals rule -> ACL.is_public rule = false.
Proof.
  unfold has_principals, ACL.is_public. intros [H | H].
  - destruct (ACL.users rule); [congruence | reflexivity].
  - destruct (ACL.groups rule); [congruence|].
    simpl. now rewrite andb_false_r.
Qed.

(** Without a stored secret the supplied secret is never looked at. *)
Lemma no_secret_no_check (rule : ACL.t) (user : option ACL.User) (pw : option string) :
  ACL.is_public rule = false ->
  ACL.str_truth (ACL.password rule) = false ->
  ACL.has_permission check_password rule user pw =
  match user with
  | Some u => if belongs rule u then ACL.allow rule else negb (ACL.allow rule)
  | None => false
  end.
Proof.
  intros P S. unfold ACL.has_permission, belongs. rewrite P.
  destruct (ACL.password rule) as [[|c h]|]; try discriminate;
    destruct user as [u|]; try reflexivity;
    destruct (ACL.user_in_users rule u), (ACL.group_match rule u); reflexivity.
Qed.

(** C7: for a rule with a non-empty principal set and no secret, a
    supplied user who belongs to the set (by key or by a common group) gets
    [rule.allow], a supplied user who does not belong gets its negation,
    and no user gets a denial. *)
Theorem C7_principal_set_decision :
  forall rule : ACL.t,
    has_principals rule ->
    ACL.str_truth (ACL.password rule) = false ->
    (forall u pw, belongs rule u = true ->
       ACL.has_permission check_password rule (Some u) pw = ACL.allow rule)
    /\ (forall u pw, belongs rule u = false ->
       ACL.has_permission check_password rule (Some u) pw = negb (ACL.allow rule))
    /\ (forall pw, ACL.has_permission check_password rule None pw = false).
Proof.
  intros rule HP HS. pose proof (not_public rule HP) as NP.
  split; [|split]; intros.
  - rewrite no_secret_no_check by assumption. now rewrite H.
  - rewrite no_secret_no_check by assumption. now rewrite H.
  - now rewrite no_secret_no_check.
Qed.

Lemma resolve_empty (topic_ : Topic.t) (acc_ : Z) :
  ACL.resolve (ACL.mkStore [] []) topic_ acc_ = Ok None.
Proof. reflexivity. Qed.

Lemma resolve_no_rules (topics_ : list Topic.t) (topic_ : Topic.t) (acc_ : Z) :
  ACL.resolve (ACL.mkStore topics_ []) topic_ acc_ = Ok None.
Proof. reflexivity. Qed.

(** C8: with no stored topic and no stored rule, resolution finds no
    rule, for a [Topic] instance and for any name that passes validation;
    and with both default flags false the default policy denies an
    anonymous principal (no user, or the anonymous user) without secret,
    for every access kind. *)
Theorem C8_empty_store_denies :
  (forall (topic_ : Topic.t) (acc_ : Z),
      ACL.get_acl TopicValidator (ACL.mkStore [] []) (Topic.Obj_Topic topic_) acc_
      = (ACL.mkStore [] [], Ok None))
  /\ (forall (s : string) (acc_ : Z),
      s <> "" -> (String.length s <= 1024)%nat -> TopicValidator s = true ->
      snd (ACL.get_acl TopicValidator (ACL.mkStore [] []) (Topic.Obj_str s) acc_)
      = Ok None)
  /\ (forall (acc_ : Z) (user : option ACL.User) (pw : option string),
      match user with None => True | Some u => ACL.is_anonymous u = true end ->
      ACL.str_truth pw = false ->
      ACL.get_default check_password
        (ACL.mkSettings (Some false) (Some false)) (ACL.mkStore [] [])
        acc_ user pw = Ok false).
Proof.
  split; [|split].
  - reflexivity.
  - intros s acc_ N L V.
    unfold ACL.get_acl, Topic.get_or_create. cbn [ACL.topics Topic.objects_get filter].
    unfold Topic.save, Topic.secure_save, Topic.full_clean.
    cbn [Topic.recompute Topic.name Topic.of_name Topic.pk forallb].
    rewrite V. apply Nat.leb_le in L. rewrite L.
    destruct s as [|c s]; [congruence|].
    cbn. reflexivity.
  - intros acc_ user pw A S. unfold ACL.get_default.
    cbn [ACL.MQTT_ACL_ALLOW ACL.MQTT_ACL_ALLOW_ANONIMOUS].
    rewrite S. destruct user as [u|]; [rewrite A|]; reflexivity.
Qed.

End Permission.

Lemma C7_principal_set_decision_witness :
  ACL.has_permission (fun _ _ => true) Examples.rule_t (Some Examples.user42) None = true
  /\ ACL.has_permission (fun _ _ => true) Examples.rule_t (Some Examples.user9) None = true
  /\ ACL.has_permission (fun _ _ => true) Examples.rule_t (Some Examples.user7) (Some "x") = false
  /\ ACL.has_permission (fun _ _ => true) Examples.rule_t None (Some "x") = false.
Proof.
  assert (HP : Invariants.has_principals Examples.rule_t) by (left; discriminate).
  destruct (C7_principal_set_decision (fun _ _ => true) Examples.rule_t HP eq_refl)
    as (H1 & H2 & H3).
  split; [|split; [|split]].
  - apply (H1 Examples.user42 None). reflexivity.
  - apply (H1 Examples.user9 None). reflexivity.
  - apply (H2 Examples.user7 (Some "x")). reflexivity.
  - apply (H3 (Some "x")).
Defined.

Lemma C8_empty_store_denies_witness :
  snd (ACL.get_acl Examples.grammar_validator Examples.store_empty
         (Topic.Obj_str "a/b") Examples.SUS) = Ok None
  /\ ACL.get_default (fun _ _ => true) Examples.deny_all Examples.store_empty
       Examples.SUS None None = Ok false.
Proof.
  destruct (C8_empty_store_denies (fun _ _ => true) Examples.grammar_validator)
    as (_ & H2 & H3).
  split.
  - apply (H2 "a/b" Examples.SUS); [discriminate | simpl; lia | reflexivity].
  - apply (H3 Examples.SUS None None); [exact I | reflexivity].
Defined.

(** * Saving a topic *)

Section Saving.
Import Protocol PyStr Invariants.

Variable TopicValidator : string -> bool.

Lemma flags_by_name (pk_ : option Z) (self : Topic.t) :
  flags_consistent
    (Topic.mk pk_ (Topic.name self) (Topic.is_wildcard self) (Topic.is_dollar self)).
Proof. split; reflexivity. Qed.

Lemma replaced_row_in (self : Topic.t) (objects : list Topic.t) :
  existsb (Topic.same_pk self) objects = true ->
  In self (map (fun row => if Topic.same_pk self row then self else row) objects).
Proof.
  intros E. apply existsb_exists in E as (row & I & S).
  apply in_map_iff. exists row. now rewrite S.
Qed.

(** What a save without [update_fields] writes: the instance with
    both flags recomputed from the name, and where. *)
Lemma save_all_fields (objects : list Topic.t) (self saved : Topic.t)
    (objects' : list Topic.t) :
  Topic.save TopicValidator objects self None = Ok (saved, objects') ->
  Topic.name saved = Topic.name self
  /\ Topic.wildcard saved = Topic.is_wildcard self
  /\ Topic.dollar saved = Topic.is_dollar self
  /\ (objects' = map (fun row => if Topic.same_pk saved row then saved else row) objects
      /\ existsb (Topic.same_pk saved) objects = true
      /\ Topic.pk saved = Topic.pk self
      \/ objects' = (objects ++ [saved])%list).
Proof.
  unfold Topic.save, Topic.secure_save. cbn [Topic.recompute].
  set (self' := Topic.mk _ _ _ (Topic.is_dollar _)).
  destruct (Topic.full_clean TopicValidator objects self'); [|discriminate].
  unfold Topic.model_save.
  destruct (existsb (Topic.same_pk self') objects) eqn:E; intros H;
    injection H as <- <-.
  - repeat split; auto.
  - repeat split; auto.
Qed.

(** A save whose validation passes does write. *)
Lemma save_returns (objects : list Topic.t) (self : Topic.t) :
  Topic.full_clean TopicValidator objects
    (Topic.mk (Topic.pk self) (Topic.name self)
              (Topic.is_wildcard self) (Topic.is_dollar self)) = true ->
  exists saved objects',
    Topic.save TopicValidator objects self None = Ok (saved, objects').
Proof.
  intros F. unfold Topic.save, Topic.secure_save. cbn [Topic.recompute].
  change (Topic.is_dollar (Topic.mk (Topic.pk self) (Topic.name self)
                             (Topic.is_wildcard self) (Topic.dollar self)))
    with (Topic.is_dollar self).
  cbn [Topic.pk Topic.name Topic.wildcard].
  rewrite F. unfold Topic.model_save.
  destruct (existsb _ objects); eauto.
Qed.

(** C10: a save without [update_fields] that goes through stores the
    instance with its flags recomputed: the stored row carries the name
    saved, its wildcard flag is whether that name contains [#] or [+], its
    dollar flag is whether it starts with [$]; and a table whose flags were
    consistent stays so. *)
Theorem C10_save_keeps_flags_consistent :
  forall (objects : list Topic.t) (self saved : Topic.t) (objects' : list Topic.t),
    Topic.save TopicValidator objects self None = Ok (saved, objects') ->
    In saved objects'
    /\ Topic.name saved = Topic.name self
    /\ Topic.wildcard saved
       = (str_in "#" (Topic.name saved) || str_in "+" (Topic.name saved))
    /\ Topic.dollar saved = startswith "$" (Topic.name saved)
    /\ ((forall row, In row objects -> flags_consistent row) ->
        forall row, In row objects' -> flags_consistent row).
Proof.
  intros objects self saved objects' H.
  destruct (save_all_fields _ _ _ _ H) as (En & Ew & Ed & Where).
  assert (C : flags_consistent saved).
  { split; [rewrite Ew | rewrite Ed];
      unfold Topic.is_wildcard, Topic.is_dollar; now rewrite En. }
  split; [|split; [|split; [|split]]].
  - destruct Where as [(-> & E & _) | ->].
    + now apply replaced_row_in.
    + apply in_or_app. right. now left.
  - exact En.
  - apply C.
  - apply C.
  - intros All row I. destruct Where as [(-> & E & _) | ->].
    + apply in_map_iff in I as (row0 & <- & I0).
      destruct (Topic.same_pk saved row0); auto.
    + apply in_app_or in I as [I | [<- | []]]; auto.
Qed.

End Saving.

Lemma C10_save_keeps_flags_consistent_witness :
  In Examples.fresh_row Examples.table_saved
  /\ Topic.wildcard Examples.fresh_row = true
  /\ Topic.dollar Examples.fresh_row = false.
Proof.
  destruct (C10_save_keeps_flags_consistent Examples.grammar_validator
              Examples.table Examples.stale_row Examples.fresh_row
              Examples.table_saved eq_refl)
    as (H1 & _ & H3 & H4 & _).
  split; [exact H1 | split; [exact H3 | exact H4]].
Defined.

(** * The effect of rule resolution on the store *)

Section StoreEffect.
Import Protocol PyStr Invariants.

Variable TopicValidator : string -> bool.

Lemma store_eta (store : ACL.Store) :
  ACL.mkStore (ACL.topics store) (ACL.rules store) = store.
Proof. now destruct store. Qed.

(** [get_or_create] either finds the row and writes nothing, or appends
    the row it creates, or raises and writes nothing. *)
Lemma get_or_create_effect (objects : list Topic.t) (s : string) :
  match Topic.get_or_create TopicValidator objects s with
  | (Ok (row, false), objects') =>
      objects' = objects /\ Topic.objects_get objects s = Ok row
  | (Ok (row, true), objects') =>
      objects' = (objects ++ [row])%list /\ Topic.name row = s
      /\ flags_consistent row
      /\ Topic.objects_get objects s = Raise DoesNotExist
  | (Raise _, objects') => objects' = objects
  end.
Proof.
  unfold Topic.get_or_create.
  destruct (Topic.objects_get objects s) as [row|e] eqn:G; [auto|].
  destruct e; auto.
  destruct (Topic.save TopicValidator objects (Topic.of_name s) None)
    as [[created objects']|e] eqn:S; [|reflexivity].
  destruct (save_all_fields _ _ _ _ _ S) as (En & Ew & Ed & Where).
  destruct Where as [(_ & E & K) | ->].
  - exfalso. clear - E K. simpl in K.
    induction objects as [|row rest IH]; [discriminate|].
    simpl in E. unfold Topic.same_pk in E at 1. rewrite K in E. auto.
  - repeat split; auto.
    + rewrite Ew. unfold Topic.is_wildcard. now rewrite En.
    + rewrite Ed. unfold Topic.is_dollar. now rewrite En.
Qed.
Lemma get_acl_str_store (store : ACL.Store) (s : string) (acc_ : Z) :
  fst (ACL.get_acl TopicValidator store (Topic.Obj_str s) acc_)
  = ACL.mkStore (snd (Topic.get_or_create TopicValidator (ACL.topics store) s))
                (ACL.rules store).
Proof.
  unfold ACL.get_acl.
  now destruct (Topic.get_or_create TopicValidator (ACL.topics store) s)
    as [[[found is_new]|e] topics'].
Qed.

Lemma get_acl_bytes_store (store : ACL.Store) (s : string) (acc_ : Z) :
  fst (ACL.get_acl TopicValidator store (Topic.Obj_bytes s) acc_)
  = fst (ACL.get_acl TopicValidator store (Topic.Obj_str s) acc_).
Proof.
  unfold ACL.get_acl.
  now destruct (Topic.get_or_create TopicValidator (ACL.topics store) s)
    as [[[found is_new]|e] topics'].
Qed.

Lemma full_clean_reads_name (objects : list Topic.t) (k : option Z) (n : string)
    (w d w' d' : bool) :
  Topic.full_clean TopicValidator objects (Topic.mk k n w d)
  = Topic.full_clean TopicValidator objects (Topic.mk k n w' d').
Proof. reflexivity. Qed.

(** C3 (amended): rule resolution never changes the stored rules.  It
    leaves the stored topics unchanged when the topic is given as a [Topic]
    instance, or as a string (or bytes) naming a stored topic; given a
    string (or bytes) naming no stored topic, [get_or_create] appends one
    topic row with that name, flags consistent, when the name passes
    validation, and writes nothing when it does not. *)
Theorem C3_resolution_store_effect :
  forall (store : ACL.Store) (acc_ : Z),
    (forall topic_,
        ACL.rules (fst (ACL.get_acl TopicValidator store topic_ acc_))
        = ACL.rules store)
    /\ (forall o,
        fst (ACL.get_acl TopicValidator store (Topic.Obj_Topic o) acc_) = store)
    /\ (forall s,
        fst (ACL.get_acl TopicValidator store (Topic.Obj_bytes s) acc_)
        = fst (ACL.get_acl TopicValidator store (Topic.Obj_str s) acc_))
    /\ (forall s row,
        Topic.objects_get (ACL.topics store) s = Ok row ->
        fst (ACL.get_acl TopicValidator store (Topic.Obj_str s) acc_) = store)
    /\ (forall s,
        Topic.objects_get (ACL.topics store) s = Raise DoesNotExist ->
        if Topic.full_clean TopicValidator (ACL.topics store) (Topic.of_name s)
        then exists created,
            ACL.topics (fst (ACL.get_acl TopicValidator store (Topic.Obj_str s) acc_))
            = (ACL.topics store ++ [created])%list
            /\ Topic.name created = s
            /\ flags_consistent created
        else fst (ACL.get_acl TopicValidator store (Topic.Obj_str s) acc_) = store).
Proof.
  intros store acc_.
  split; [|split; [|split; [|split]]].
  - intros [o|s|s|]; try reflexivity.
    + now rewrite get_acl_str_store.
    + now rewrite get_acl_bytes_store, get_acl_str_store.
  - reflexivity.
  - intros s. apply get_acl_bytes_store.
  - intros s row G. rewrite get_acl_str_store.
    unfold Topic.get_or_create. rewrite G. apply store_eta.
  - intros s G. rewrite get_acl_str_store.
    unfold Topic.get_or_create. rewrite G.
    unfold Topic.save, Topic.secure_save. cbn [Topic.recompute].
    set (self' := Topic.mk _ _ _ (Topic.is_dollar _)).
    change (Topic.full_clean TopicValidator (ACL.topics store) (Topic.of_name s))
      with (Topic.full_clean TopicValidator (ACL.topics store) self').
    destruct (Topic.full_clean TopicValidator (ACL.topics store) self'); simpl.
    + assert (X : existsb (Topic.same_pk self') (ACL.topics store) = false).
      { clear. induction (ACL.topics store) as [|r rest IH]; [reflexivity|].
        simpl. exact IH. }
      rewrite X. simpl. eexists. split; [reflexivity|].
      split; [reflexivity|]. split; reflexivity.
    + apply store_eta.
Qed.

End StoreEffect.

(** C3, as stated, fails: resolving a name that is not stored yet stores
    a topic of that name. *)
Lemma C3_counterexample_get_or_create :
  ACL.get_acl Examples.grammar_validator Examples.store_empty
    (Topic.Obj_str "a/b") Examples.PUB
  = (ACL.mkStore [Topic.mk (Some 1%Z) "a/b" false false] [], Ok None)
  /\ ACL.topics (fst (ACL.get_acl Examples.grammar_validator Examples.store_empty
                        (Topic.Obj_str "a/b") Examples.PUB))
     <> ACL.topics Examples.store_empty.
Proof. split; [reflexivity | discriminate]. Qed.

Lemma C3_resolution_store_effect_witness :
  fst (ACL.get_acl Examples.grammar_validator Examples.store_scenario
         (Topic.Obj_str "a/b") Examples.SUS) = Examples.store_scenario
  /\ exists created,
      ACL.topics (fst (ACL.get_acl Examples.grammar_validator Examples.store_scenario
                         (Topic.Obj_str "a/c") Examples.SUS))
      = (ACL.topics Examples.store_scenario ++ [created])%list
      /\ Topic.name created = "a/c"
      /\ Invariants.flags_consistent created.
Proof.
  destruct (C3_resolution_store_effect Examples.grammar_validator
              Examples.store_scenario Examples.SUS) as (_ & _ & _ & H4 & H5).
  split.
  - apply (H4 "a/b" Examples.a_b). reflexivity.
  - apply (H5 "a/c"). reflexivity.
Defined.

(** * Rule resolution *)

Section Resolution.
Import Protocol PyStr Invariants.

Variable TopicValidator : string -> bool.

(** Under a uniqueness constraint a lookup by key selects one row. *)
Lemma filter_unique {A K : Type} (key : A -> K) (select : A -> bool)
    (rows : list A) (row : A) :
  NoDup (map key rows) -> In row rows ->
  (forall r, select r = true <-> key r = key row) ->
  filter select rows = [row].
Proof.
  intros ND I S. induction rows as [|r rest IH]; [destruct I|].
  simpl in ND. inversion ND as [|? ? NI ND']; subst.
  assert (Out : forall l, ~ In (key row) (map key l) -> filter select l = []).
  { induction l as [|x l IHl]; [reflexivity|]. simpl. intros N.
    destruct (select x) eqn:Sx.
    - exfalso. apply N. left. now apply S.
    - apply IHl. tauto. }
  simpl. destruct I as [-> | I].
  - rewrite (proj2 (S row) eq_refl). f_equal. now apply Out.
  - destruct (select r) eqn:Sr.
    + exfalso. apply NI. apply S in Sr. rewrite Sr. now apply in_map.
    + now apply IH.
Qed.

Lemma exact_rule_found (store : ACL.Store) (topic_ : Topic.t) (acc_ : Z)
    (rule : ACL.t) :
  unique_together store -> In rule (ACL.rules store) ->
  ACL.on_topic topic_ rule = true -> ACL.acc rule = acc_ ->
  ACL.objects_get store topic_ acc_ = Ok rule.
Proof.
  intros U I T A. unfold ACL.objects_get.
  rewrite (filter_unique rule_key _ _ rule U I); [reflexivity|].
  intros r. unfold rule_key, ACL.on_topic, Topic.same_pk, Topic.pk_is in *.
  destruct (Topic.pk topic_) as [k|]; [|discriminate].
  destruct (Topic.pk (ACL.topic rule)) as [k'|]; [|discriminate].
  apply Z.eqb_eq in T. subst k' acc_. split.
  - intros H. apply andb_true_iff in H as [H1 H2].
    destruct (Topic.pk (ACL.topic r)); [|discriminate].
    apply Z.eqb_eq in H1, H2. congruence.
  - intros H. injection H as H1 H2. rewrite H1, H2. now rewrite !Z.eqb_refl.
Qed.

(** C6: when the store holds a rule keyed by the topic and the access
    kind (one at most, by the uniqueness constraint), resolution returns
    that rule whatever the wildcard rules, for the [Topic] instance and for
    the string naming it.  In the scenario with [a/#] allowing and [a/b]
    denying subscription, [a/b] resolves to the exact rule and [a/c] to
    the [a/#] rule. *)
Theorem C6_exact_rule_dominates :
  (forall (store : ACL.Store) (topic_ : Topic.t) (acc_ : Z) (rule : ACL.t),
      unique_together store -> In rule (ACL.rules store) ->
      ACL.on_topic topic_ rule = true -> ACL.acc rule = acc_ ->
      ACL.get_acl TopicValidator store (Topic.Obj_Topic topic_) acc_
      = (store, Ok (Some rule))
      /\ (forall s, Topic.objects_get (ACL.topics store) s = Ok topic_ ->
          ACL.get_acl TopicValidator store (Topic.Obj_str s) acc_
          = (store, Ok (Some rule))))
  /\ (ACL.get_acl TopicValidator Examples.store_scenario (Topic.Obj_str "a/b")
        ACL.PROTO_MQTT_ACC_SUS
      = (Examples.store_scenario, Ok (Some Examples.rule_a_b))
      /\ ACL.allow Examples.rule_a_b = false)
  /\ (forall k w d,
      k <> Some 1%Z -> k <> Some 4%Z ->
      ACL.get_acl TopicValidator Examples.store_scenario
        (Topic.Obj_Topic (Topic.mk k "a/c" w d)) ACL.PROTO_MQTT_ACC_SUS
      = (Examples.store_scenario, Ok (Some Examples.rule_a_hash)))
  /\ (TopicValidator "a/c" = true ->
      snd (ACL.get_acl TopicValidator Examples.store_scenario (Topic.Obj_str "a/c")
             ACL.PROTO_MQTT_ACC_SUS)
      = Ok (Some Examples.rule_a_hash)
      /\ ACL.allow Examples.rule_a_hash = true).
Proof.
  split; [|split; [|split]].
  - intros store topic_ acc_ rule U I T A.
    pose proof (exact_rule_found store topic_ acc_ rule U I T A) as G.
    split.
    + unfold ACL.get_acl, ACL.resolve. now rewrite G.
    + intros s Gs. unfold ACL.get_acl, Topic.get_or_create. rewrite Gs.
      rewrite store_eta. unfold ACL.resolve. now rewrite G.
  - split; reflexivity.
  - intros [k|] w d N1 N4; [|reflexivity].
    assert (K1 : k <> 1%Z) by congruence.
    assert (K4 : k <> 4%Z) by congruence.
    unfold ACL.get_acl, ACL.resolve, ACL.objects_get. f_equal.
    cbn [Examples.store_scenario ACL.rules filter ACL.on_topic Topic.same_pk
         Topic.pk Topic.pk_is ACL.topic Examples.rule_a_hash Examples.rule_a_b
         Examples.a_hash Examples.a_b].
    apply Z.eqb_neq in K1, K4. rewrite K1, K4. reflexivity.
  - intros V. split; [|reflexivity].
    unfold ACL.get_acl, Topic.get_or_create.
    cbn [Examples.store_scenario ACL.topics].
    change (Topic.objects_get [Examples.a_b; Examples.a_hash] "a/c")
      with (@Raise Topic.t DoesNotExist).
    unfold Topic.save, Topic.secure_save, Topic.full_clean.
    cbn [Topic.recompute Topic.name Topic.of_name Topic.pk].
    rewrite V. reflexivity.
Qed.

End Resolution.

Lemma C6_exact_rule_dominates_witness :
  ACL.get_acl Examples.grammar_validator Examples.store_scenario
    (Topic.Obj_Topic Examples.a_b) Examples.SUS
  = (Examples.store_scenario, Ok (Some Examples.rule_a_b))
  /\ snd (ACL.get_acl Examples.grammar_validator Examples.store_scenario
            (Topic.Obj_str "a/c") Examples.SUS)
     = Ok (Some Examples.rule_a_hash).
Proof.
  destruct (C6_exact_rule_dominates Examples.grammar_validator)
    as (H1 & _ & _ & H4).
  split.
  - apply (H1 Examples.store_scenario Examples.a_b Examples.SUS Examples.rule_a_b).
    + unfold Invariants.unique_together. simpl.
      repeat constructor; simpl; intuition discriminate.
    + right. now left.
    + reflexivity.
    + reflexivity.
  - apply H4. reflexivity.
Defined.

(** * The specificity order *)

Section Specificity.
Import Protocol PyStr Invariants.

Lemma grammar_tail (part next : string) (rest : list string) :
  grammar (part :: next :: rest) = true ->
  part <> str WILDCARD_MULTI_LEVEL /\ grammar (next :: rest) = true.
Proof.
  cbn [grammar]. intros H. apply andb_true_iff in H as [H G]. split; [|exact G].
  intros ->. discriminate.
Qed.

(** Two walks in opposite directions over segment lists of one length
    succeed only on equal lists. *)
Lemma walk_antisym : forall my_parts comp_parts,
  grammar my_parts = true -> grammar comp_parts = true ->
  List.length my_parts = List.length comp_parts ->
  Topic.walk true my_parts comp_parts = true ->
  Topic.walk true comp_parts my_parts = true ->
  my_parts = comp_parts.
Proof.
  induction my_parts as [|p ps IH]; intros [|q qs] Gp Gq L W1 W2;
    try discriminate; [reflexivity|].
  injection L as L.
  assert (Tail : ps = qs ->  p = q -> p :: ps = q :: qs) by congruence.
  cbn [Topic.walk] in W1, W2. cbn [andb] in W1, W2.
  destruct ps as [|p' ps'], qs as [|q' qs']; try discriminate.
  - (* last segments *)
    destruct (String.eqb_spec p (str WILDCARD_SINGLE_LEVEL)) as [->|Np].
    + destruct (String.eqb_spec q (str WILDCARD_MULTI_LEVEL)) as [->|Nq];
        [discriminate|].
      destruct (String.eqb_spec q (str WILDCARD_SINGLE_LEVEL)) as [->|Nq'];
        [reflexivity|].
      cbn in W2. destruct (String.eqb_spec q "+"); [contradiction | discriminate].
    + destruct (String.eqb_spec p (str WILDCARD_MULTI_LEVEL)) as [->|Np'].
      * destruct (String.eqb_spec q (str WILDCARD_SINGLE_LEVEL)) as [->|Nq];
          [discriminate|].
        destruct (String.eqb_spec q (str WILDCARD_MULTI_LEVEL)) as [->|Nq'];
          [reflexivity|].
        destruct (String.eqb_spec q (str WILDCARD_MULTI_LEVEL));
          [contradiction | discriminate].
      * destruct (String.eqb_spec p q) as [->|Npq]; [reflexivity | discriminate].
  - (* inner segments *)
    destruct (grammar_tail _ _ _ Gp) as [Hp Gp'].
    destruct (grammar_tail _ _ _ Gq) as [Hq Gq'].
    destruct (String.eqb_spec p (str WILDCARD_SINGLE_LEVEL)) as [->|Np].
    + destruct (String.eqb_spec q (str WILDCARD_MULTI_LEVEL)) as [->|Nq];
        [discriminate|].
      destruct (String.eqb_spec q (str WILDCARD_SINGLE_LEVEL)) as [->|Nq'].
      * apply Tail; [|reflexivity]. apply IH; auto.
      * cbn in W2. destruct (String.eqb_spec q "+"); [contradiction | discriminate].
    + destruct (String.eqb_spec p (str WILDCARD_MULTI_LEVEL)) as [->|Np'];
        [congruence|].
      destruct (String.eqb_spec p q) as [->|Npq]; [|discriminate].
      cbn [negb] in W1.
      destruct (String.eqb_spec q (str WILDCARD_SINGLE_LEVEL)); [contradiction|].
      destruct (String.eqb_spec q (str WILDCARD_MULTI_LEVEL)); [contradiction|].
      rewrite String.eqb_refl in W2. cbn [negb] in W2.
      apply Tail; [|reflexivity]. apply IH; auto.
Qed.

(** On names that obey the grammar, covering is antisymmetric. *)
Lemma contains_antisym (a b : Topic.t) :
  TopicGrammar (Topic.name a) = true -> TopicGrammar (Topic.name b) = true ->
  Topic.__contains__ a (Topic.Obj_Topic b) = true ->
  Topic.__contains__ b (Topic.Obj_Topic a) = true ->
  Topic.name a = Topic.name b.
Proof.
  intros Ga Gb Cab Cba.
  destruct (string_dec (Topic.name a) (Topic.name b)) as [E|N]; [exact E|].
  destruct (contains_inv _ _ Cab N) as (Wa & _ & _ & L1 & _ & W1).
  destruct (contains_inv _ _ Cba (not_eq_sym N)) as (Wb & _ & _ & L2 & _ & W2).
  rewrite Wb in W1. rewrite Wa in W2.
  apply (split_inj TOPIC_SEP). apply walk_antisym; auto. lia.
Qed.

End Specificity.

(** * The most specific rule *)

Section MostSpecific.
Import Protocol PyStr Invariants.

Variable TopicValidator : string -> bool.

(** What [min] keeps of a list of wildcard rules that all cover the topic
    of [least]: a rule on the topic of [least], if [least] is in the list. *)
Lemma py_min_least (least : ACL.t) : forall (rest : list ACL.t) (kept : ACL.t),
  TopicGrammar (Topic.name (ACL.topic least)) = true ->
  (forall x, In x (kept :: rest) ->
     TopicGrammar (Topic.name (ACL.topic x)) = true
     /\ Topic.is_wildcard (ACL.topic x) = true
     /\ Topic.__contains__ (ACL.topic x) (Topic.Obj_Topic (ACL.topic least)) = true) ->
  Topic.name (ACL.topic kept) = Topic.name (ACL.topic least) \/ In least rest ->
  In (ACL.py_min ACL.__lt__ kept rest) (kept :: rest)
  /\ Topic.name (ACL.topic (ACL.py_min ACL.__lt__ kept rest))
     = Topic.name (ACL.topic least).
Proof.
  intros rest. induction rest as [|x rest IH]; intros kept GL All Where.
  - simpl. destruct Where as [E | []]. auto.
  - unfold ACL.py_min. cbn [fold_left].
    fold (ACL.py_min ACL.__lt__ (if ACL.__lt__ x kept then x else kept) rest).
    set (kept' := if ACL.__lt__ x kept then x else kept).
    destruct (All kept (or_introl eq_refl)) as (Gk & Wk & Ck).
    destruct (All x (or_intror (or_introl eq_refl))) as (Gx & Wx & Cx).
    assert (Lt : ACL.__lt__ x kept
                 = Topic.__contains__ (ACL.topic kept) (Topic.Obj_Topic (ACL.topic x))).
    { unfold ACL.__lt__, Topic.__lt__. cbn [Topic.as_topic].
      now rewrite (wildcard_truth _ Wk), Wk. }
    assert (K' : kept' = x \/ kept' = kept)
      by (unfold kept'; destruct (ACL.__lt__ x kept); auto).
    destruct (IH kept' GL) as [I E].
    + intros y [<- | Iy].
      * destruct K' as [-> | ->]; auto.
      * apply All. right. now right.
    + destruct Where as [E | [<- | I]].
      * left. unfold kept'. rewrite Lt.
        destruct (Topic.__contains__ (ACL.topic kept) (Topic.Obj_Topic (ACL.topic x)))
          eqn:L; [|exact E].
        rewrite (contains_names _ (ACL.topic least) _ (ACL.topic x) E eq_refl) in L.
        now apply contains_antisym.
      * left. unfold kept'. now rewrite Lt, Ck.
      * now right.
    + split; [|exact E].
      destruct I as [<- | I]; [|now right; right].
      destruct K' as [-> | ->]; [right; now left | now left].
Qed.

Lemma covering_in (store : ACL.Store) (topic_ : Topic.t) (acc_ : Z) (rule : ACL.t) :
  In rule (ACL.covering store topic_ acc_) ->
  In rule (ACL.rules store)
  /\ Topic.wildcard (ACL.topic rule) = true
  /\ ACL.acc rule = acc_
  /\ Topic.__contains__ (ACL.topic rule) (Topic.Obj_Topic topic_) = true.
Proof.
  unfold ACL.covering, ACL.wildcard_rules. intros I.
  apply filter_In in I as [I C]. apply filter_In in I as [I F].
  apply andb_true_iff in F as [W A]. apply Z.eqb_eq in A. auto.
Qed.

Lemma py_min_in {A : Type} (lt : A -> A -> bool) : forall (rest : list A) (first : A),
  In (ACL.py_min lt first rest) (first :: rest).
Proof.
  unfold ACL.py_min. induction rest as [|x rest IH]; intros first; [now left|].
  cbn [fold_left]. destruct (IH (if lt x first then x else first)) as [E | I].
  - destruct (lt x first); rewrite <- E; [right; now left | now left].
  - right. now right.
Qed.

(** C1 (amended): when no exact rule exists for the topic and access
    kind and at least one stored wildcard rule covers the topic,
    resolution returns a rule from the covering candidates, comparable or
    not; and when, the rules referring to topics that obey the grammar with
    consistent flags, one of the covering candidates is most specific, its
    topic covered by the topic of every other covering candidate, the rule
    returned is on that topic, so that its topic is covered by the topic of
    every covering candidate. *)
Theorem C1_most_specific_rule :
  forall (store : ACL.Store) (topic_ : Topic.t) (acc_ : Z),
    ACL.objects_get store topic_ acc_ = Raise DoesNotExist ->
    ACL.covering store topic_ acc_ <> [] ->
    exists rule,
      ACL.get_acl TopicValidator store (Topic.Obj_Topic topic_) acc_
      = (store, Ok (Some rule))
      /\ In rule (ACL.covering store topic_ acc_)
      /\ forall least,
           rules_wellformed store ->
           In least (ACL.covering store topic_ acc_) ->
           (forall other, In other (ACL.covering store topic_ acc_) ->
              other <> least ->
              Topic.__contains__ (ACL.topic other)
                (Topic.Obj_Topic (ACL.topic least)) = true) ->
           Topic.name (ACL.topic rule) = Topic.name (ACL.topic least)
           /\ forall other, In other (ACL.covering store topic_ acc_) ->
                Topic.__contains__ (ACL.topic other)
                  (Topic.Obj_Topic (ACL.topic rule)) = true.
Proof.
  intros store topic_ acc_ NoExact Some_.
  unfold ACL.get_acl, ACL.resolve. rewrite NoExact.
  destruct (ACL.covering store topic_ acc_) as [|first rest] eqn:Cov;
    [congruence|].
  exists (ACL.py_min ACL.__lt__ first rest).
  split; [reflexivity|]. split; [apply py_min_in|].
  intros least WF IL Least. rewrite <- Cov in IL, Least.
  assert (Facts : forall x, In x (ACL.covering store topic_ acc_) ->
            TopicGrammar (Topic.name (ACL.topic x)) = true
            /\ Topic.is_wildcard (ACL.topic x) = true
            /\ Topic.__contains__ (ACL.topic x)
                 (Topic.Obj_Topic (ACL.topic least)) = true).
  { intros x Ix. destruct (covering_in _ _ _ _ Ix) as (Ir & W & _ & _).
    destruct (WF x Ir) as (G & Fw & _). rewrite Fw in W.
    split; [exact G | split; [exact W|]].
    destruct (covering_in _ _ _ _ IL) as (IrL & WL & _ & _).
    destruct (WF least IrL) as (_ & FwL & _). rewrite FwL in WL.
    assert (NL : Topic.name (ACL.topic least) <> "")
      by (apply truth_nonempty; now apply wildcard_truth).
    destruct (string_dec (Topic.name (ACL.topic x)) (Topic.name (ACL.topic least)))
      as [E | N].
    - now apply contains_same_name.
    - apply Least; [exact Ix | congruence]. }
  rewrite Cov in IL, Facts.
  destruct (py_min_least least rest first) as [I E].
  - apply (Facts least IL).
  - exact Facts.
  - destruct IL as [<- | IL]; [now left | now right].
  - split; [exact E|]. intros other Io.
    rewrite (contains_names _ (ACL.topic other) _ (ACL.topic least) eq_refl E).
    now apply Facts.
Qed.

End MostSpecific.

(** C1, as stated, fails: [a/+] and [+/b] both cover [a/b] and neither
    covers the other; [min] keeps the first rule the table yields, and the
    topic of the other rule does not cover the topic of the one returned,
    in whichever order the two rules are stored. *)
Lemma C1_counterexample_incomparable_rules :
  ACL.objects_get Examples.store_incomparable Examples.a_b Examples.SUS
  = Raise DoesNotExist
  /\ ACL.covering Examples.store_incomparable Examples.a_b Examples.SUS
     = [Examples.rule_a_plus; Examples.rule_plus_b]
  /\ ACL.get_acl Examples.grammar_validator Examples.store_incomparable
       (Topic.Obj_Topic Examples.a_b) Examples.SUS
     = (Examples.store_incomparable, Ok (Some Examples.rule_a_plus))
  /\ Examples.rule_plus_b <> Examples.rule_a_plus
  /\ Topic.__contains__ (ACL.topic Examples.rule_plus_b)
       (Topic.Obj_Topic (ACL.topic Examples.rule_a_plus)) = false
  /\ snd (ACL.get_acl Examples.grammar_validator
            (ACL.mkStore (ACL.topics Examples.store_incomparable)
                         [Examples.rule_plus_b; Examples.rule_a_plus])
            (Topic.Obj_Topic Examples.a_b) Examples.SUS)
     = Ok (Some Examples.rule_plus_b)
  /\ Topic.__contains__ (ACL.topic Examples.rule_a_plus)
       (Topic.Obj_Topic (ACL.topic Examples.rule_plus_b)) = false.
Proof. repeat split; try reflexivity. discriminate. Qed.

Lemma C1_most_specific_rule_witness :
  (exists rule,
      ACL.get_acl Examples.grammar_validator Examples.store_chain
        (Topic.Obj_Topic Examples.a_b) Examples.SUS
      = (Examples.store_chain, Ok (Some rule))
      /\ In rule (ACL.covering Examples.store_chain Examples.a_b Examples.SUS)
      /\ Topic.name (ACL.topic rule) = "a/+"
      /\ forall other,
          In other (ACL.covering Examples.store_chain Examples.a_b Examples.SUS) ->
          Topic.__contains__ (ACL.topic other) (Topic.Obj_Topic (ACL.topic rule))
          = true)
  /\ (exists rule,
      ACL.get_acl Examples.grammar_validator Examples.store_incomparable
        (Topic.Obj_Topic Examples.a_b) Examples.SUS
      = (Examples.store_incomparable, Ok (Some rule))
      /\ In rule (ACL.covering Examples.store_incomparable Examples.a_b
                    Examples.SUS)).
Proof.
  split.
  - destruct (C1_most_specific_rule Examples.grammar_validator Examples.store_chain
                Examples.a_b Examples.SUS eq_refl ltac:(discriminate))
      as (rule & H1 & H2 & H3).
    exists rule. split; [exact H1 | split; [exact H2|]].
    apply (H3 Examples.rule_a_plus).
    + intros r [<- | [<- | [<- | []]]]; repeat split.
    + right. now left.
    + intros other [<- | [<- | [<- | []]]] N; reflexivity.
  - destruct (C1_most_specific_rule Examples.grammar_validator
                Examples.store_incomparable Examples.a_b Examples.SUS
                eq_refl ltac:(discriminate))
      as (rule & H1 & H2 & _).
    exists rule. split; [exact H1 | exact H2].
Defined.

(** * The candidate prefilter *)

Section Prefilter.
Import Protocol PyStr Invariants.

Lemma filter_filter {A : Type} (f g : A -> bool) (rows : list A) :
  filter f (filter g rows) = filter (fun row => g row && f row) rows.
Proof.
  induction rows as [|row rows IH]; [reflexivity|].
  simpl. destruct (g row); simpl; [destruct (f row)|]; now rewrite IH.
Qed.

Lemma fold_filter {A B : Type} (test : B -> A -> bool) :
  forall (parts : list B) (rows : list A),
    fold_left (fun rs part => filter (test part) rs) parts rows
    = filter (fun row => forallb (fun part => test part row) parts) rows.
Proof.
  induction parts as [|part parts IH]; intros rows; simpl.
  - induction rows as [|row rows IHr]; [reflexivity|]. simpl. now rewrite <- IHr.
  - now rewrite IH, filter_filter.
Qed.

Lemma forallb_nodup (test : string -> bool) (parts : list string) :
  forallb test (nodup string_dec parts) = forallb test parts.
Proof.
  apply eq_true_iff_eq. rewrite !forallb_forall.
  split; intros H x I; apply H; now apply nodup_In in I || apply nodup_In.
Qed.

(** [get_candidates] returns the rows of the class of the filter that
    pass the prefilter, in table order. *)
Lemma get_candidates_spec (objects : list Topic.t) (self : Topic.t) :
  Topic.get_candidates objects self
  = filter (fun row => same_class self row && prefilter self (Topic.name row))
           objects.
Proof.
  unfold Topic.get_candidates, prefilter, same_class.
  set (multi := endswith (str WILDCARD_MULTI_LEVEL) (Topic.name self)).
  set (topic := if multi then drop_last (Topic.name self) else Topic.name self).
  set (parts := split WILDCARD_SINGLE_LEVEL topic).
  destruct (List.length parts =? 1)%nat.
  - destruct (negb (String.length topic =? 0)%nat).
    + now rewrite filter_filter.
    + apply filter_ext. intros row. now rewrite andb_true_r.
  - destruct (topic =? str WILDCARD_SINGLE_LEVEL).
    + now rewrite filter_filter.
    + rewrite fold_filter.
      destruct multi; rewrite !filter_filter; apply filter_ext; intros row;
        now rewrite forallb_nodup, !andb_assoc.
Qed.

(** ** From a successful walk to an instance of the filter *)

Lemma plain_no_plus (part : string) :
  plain part = true -> str_in (str WILDCARD_SINGLE_LEVEL) part = false.
Proof.
  unfold plain. intros H. apply andb_true_iff in H as [_ H].
  now apply negb_true_iff in H.
Qed.

Lemma plain_no_hash (part : string) :
  plain part = true -> str_in (str WILDCARD_MULTI_LEVEL) part = false.
Proof.
  unfold plain. intros H. apply andb_true_iff in H as [H _].
  now apply negb_true_iff in H.
Qed.

Lemma ends_multi_tail (p q : string) (rest : list string) :
  ends_multi (p :: q :: rest) = ends_multi (q :: rest).
Proof. reflexivity. Qed.

(** On a name that obeys the grammar, [get_candidates] cuts the name at a
    trailing [#] segment and nowhere else. *)
Lemma body_spec : forall parts,
  parts <> [] -> grammar parts = true ->
  endswith (str WILDCARD_MULTI_LEVEL) (join TOPIC_SEP parts) = ends_multi parts
  /\ (if endswith (str WILDCARD_MULTI_LEVEL) (join TOPIC_SEP parts)
      then drop_last (join TOPIC_SEP parts) else join TOPIC_SEP parts)
     = body parts.
Proof.
  induction parts as [|p rest IH]; [congruence|]. intros _ G.
  destruct rest as [|q rest].
  - cbn [grammar] in G. unfold ends_multi. cbn [join body last].
    destruct (String.eqb_spec p (str WILDCARD_SINGLE_LEVEL)) as [->|N1];
      [split; reflexivity|].
    destruct (String.eqb_spec p (str WILDCARD_MULTI_LEVEL)) as [->|N2];
      [split; reflexivity|].
    cbn [orb] in G. apply plain_no_hash in G.
    destruct (endswith (str WILDCARD_MULTI_LEVEL) p) eqn:E.
    + apply endswith_str_in in E. congruence.
    + split; reflexivity.
  - destruct (grammar_tail _ _ _ G) as [Np G'].
    destruct (IH ltac:(discriminate) G') as [IH1 IH2].
    rewrite ends_multi_tail.
    change (body (p :: q :: rest)) with (p ++ String TOPIC_SEP (body (q :: rest))).
    change (join TOPIC_SEP (p :: q :: rest))
      with (p ++ String TOPIC_SEP (join TOPIC_SEP (q :: rest))).
    set (r := join TOPIC_SEP (q :: rest)) in *.
    assert (E : endswith (str WILDCARD_MULTI_LEVEL) (p ++ String TOPIC_SEP r)
                = endswith (str WILDCARD_MULTI_LEVEL) r).
    { rewrite endswith_char_app by discriminate. reflexivity. }
    rewrite E. split; [exact IH1|].
    destruct (endswith (str WILDCARD_MULTI_LEVEL) r) eqn:Er.
    + rewrite drop_last_app by discriminate. f_equal.
      destruct r as [|c r]; [discriminate|].
      change (drop_last (String TOPIC_SEP (String c r)))
        with (String TOPIC_SEP (drop_last (String c r))).
      now rewrite IH2.
    + now rewrite IH2.
Qed.

Lemma inst_cons (p : string) (ps : list string) (multi : bool) (s t' : string) :
  ps <> [] -> Inst ps multi t' -> Inst (p :: ps) multi (p ++ s ++ t').
Proof.
  intros N I. destruct ps as [|q ps]; [congruence|].
  cbn [Inst]. exists s, t'. split; [reflexivity | exact I].
Qed.

(** The walk of [__contains__], once through, shows the compared name to
    be the filter name with a segment put for each [+] and, for a trailing
    [#], a remainder appended. *)
Lemma walk_inst (comp_wild : bool) : forall my_parts comp_parts pre,
  my_parts <> [] -> grammar my_parts = true ->
  (List.length my_parts <= List.length comp_parts)%nat ->
  (ends_multi my_parts = false ->
   List.length comp_parts = List.length my_parts) ->
  Topic.walk comp_wild my_parts comp_parts = true ->
  str_in (str WILDCARD_SINGLE_LEVEL) pre = false ->
  Inst (split WILDCARD_SINGLE_LEVEL (pre ++ body my_parts))
       (ends_multi my_parts) (pre ++ join TOPIC_SEP comp_parts).
Proof.
  induction my_parts as [|p rest IH]; [congruence|].
  intros [|t ts] pre _ G L Exact W Fpre; [simpl in L; lia|].
  destruct rest as [|q rest].
  - (* the last segment of the filter *)
    unfold ends_multi in *. cbn [last body] in *.
    cbn [grammar] in G. cbn [Topic.walk] in W.
    destruct (String.eqb_spec p (str WILDCARD_SINGLE_LEVEL)) as [->|N1].
    + assert (ts = []) as ->.
      { specialize (Exact eq_refl). simpl in Exact. destruct ts; [reflexivity|].
        discriminate. }
      cbn [join]. rewrite split_app_free by exact Fpre.
      cbn. exists t, "". split; [|reflexivity].
      now rewrite !append_nil_r.
    + destruct (String.eqb_spec p (str WILDCARD_MULTI_LEVEL)) as [->|N2].
      * rewrite append_nil_r, split_free by exact Fpre.
        cbn. eexists. reflexivity.
      * cbn [orb] in G.
        destruct (String.eqb_spec p t) as [->|N3]; [|discriminate].
        assert (ts = []) as ->.
        { specialize (Exact eq_refl). simpl in Exact. destruct ts; [reflexivity|].
          discriminate. }
        cbn [join]. rewrite split_free; [reflexivity|].
        rewrite str_in_char_app, Fpre. now apply plain_no_plus.
  - (* an inner segment *)
    destruct (grammar_tail _ _ _ G) as [Np G'].
    assert (Nts : ts <> []) by (destruct ts; [simpl in L; lia | discriminate]).
    rewrite ends_multi_tail in *.
    change (body (p :: q :: rest)) with (p ++ String TOPIC_SEP (body (q :: rest))).
    rewrite (join_cons TOPIC_SEP t ts Nts).
    assert (L' : (List.length (q :: rest) <= List.length ts)%nat)
      by (simpl in *; lia).
    assert (Exact' : ends_multi (q :: rest) = false ->
                     List.length ts = List.length (q :: rest))
      by (intros H; specialize (Exact H); simpl in *; lia).
    cbn [grammar] in G. apply andb_true_iff in G as [Gp _].
    cbn [Topic.walk] in W.
    destruct (String.eqb_spec p (str WILDCARD_SINGLE_LEVEL)) as [->|N1].
    + assert (W' : Topic.walk comp_wild (q :: rest) ts = true)
        by (destruct (comp_wild && (t =? str WILDCARD_MULTI_LEVEL)); [discriminate | exact W]).
      pose proof (IH ts (str TOPIC_SEP) ltac:(discriminate) G' L' Exact' W' eq_refl)
        as I.
      rewrite split_app_free by exact Fpre.
      change (str WILDCARD_SINGLE_LEVEL ++ String TOPIC_SEP (body (q :: rest)))
        with (String WILDCARD_SINGLE_LEVEL (str TOPIC_SEP ++ body (q :: rest))).
      rewrite split_sep_cons. cbn [hd tl]. rewrite append_nil_r.
      change (String TOPIC_SEP (join TOPIC_SEP ts))
        with (str TOPIC_SEP ++ join TOPIC_SEP ts).
      apply inst_cons; [apply split_not_nil | exact I].
    + destruct (String.eqb_spec p (str WILDCARD_MULTI_LEVEL)) as [->|_];
        [congruence|].
      cbn [orb] in Gp.
      destruct (String.eqb_spec p t) as [->|N3]; [|discriminate].
      cbn [negb] in W.
      assert (F' : str_in (str WILDCARD_SINGLE_LEVEL) (pre ++ t ++ str TOPIC_SEP) = false).
      { rewrite !str_in_char_app, Fpre, (plain_no_plus _ Gp). reflexivity. }
      pose proof (IH ts (pre ++ t ++ str TOPIC_SEP) ltac:(discriminate) G' L' Exact' W F')
        as I.
      rewrite !append_assoc in I. exact I.
Qed.

Lemma walk_refl (comp_wild : bool) : forall parts,
  Topic.walk comp_wild parts parts = true.
Proof.
  induction parts as [|p rest IH]; [reflexivity|]. cbn [Topic.walk].
  destruct (String.eqb_spec p (str WILDCARD_SINGLE_LEVEL)) as [->|N1].
  - now rewrite andb_false_r.
  - destruct (p =? str WILDCARD_MULTI_LEVEL); [reflexivity|].
    now rewrite String.eqb_refl.
Qed.

(** ** What an instance satisfies *)

Lemma inst_hd : forall ps multi t,
  Inst ps multi t -> startswith (hd "" ps) t = true.
Proof.
  intros [|p [|q ps]] multi t I; cbn [Inst hd] in *; [destruct I| |].
  - destruct multi.
    + destruct I as [rest ->]. apply startswith_app.
    + subst. rewrite <- (append_nil_r p) at 2. apply startswith_app.
  - destruct I as (s & t' & -> & _). apply startswith_app.
Qed.

Lemma inst_all : forall ps multi t,
  Inst ps multi t -> forall p, In p ps -> str_in p t = true.
Proof.
  induction ps as [|p ps IH]; intros multi t I x Ix; [destruct Ix|].
  destruct ps as [|q ps].
  - destruct Ix as [<- | []]. cbn [Inst] in I. destruct multi.
    + destruct I as [rest ->]. apply str_in_here.
    + subst. rewrite <- (append_nil_r p) at 2. apply str_in_here.
  - cbn [Inst] in I. destruct I as (s & t' & -> & I).
    destruct Ix as [<- | Ix].
    + apply str_in_here.
    + rewrite <- append_assoc. apply str_in_app_l. now apply (IH multi).
Qed.

Lemma inst_last_exact : forall ps t,
  Inst ps false t -> endswith (last ps "") t = true.
Proof.
  induction ps as [|p ps IH]; intros t I; [destruct I|].
  destruct ps as [|q ps].
  - cbn [Inst] in I. subst. apply endswith_refl.
  - cbn [Inst] in I. destruct I as (s & t' & -> & I).
    change (last (p :: q :: ps) "") with (last (q :: ps) "").
    rewrite <- append_assoc. apply endswith_app_l. now apply IH.
Qed.

Lemma last_in (ps : list string) : ps <> [] -> In (last ps "") ps.
Proof.
  induction ps as [|p ps IH]; [congruence|]. intros _.
  destruct ps as [|q ps]; [now left|]. right. apply IH. discriminate.
Qed.

Lemma interior_in (ps : list string) (p : string) : In p (interior ps) -> In p ps.
Proof.
  unfold interior. intros I.
  assert (R : forall l : list string, In p (removelast l) -> In p l).
  { induction l as [|x l IHl]; [auto|]. simpl. destruct l; [intros []|].
    intros [<- | H]; [now left | right; now apply IHl]. }
  apply R in I. destruct ps; [destruct I | now right].
Qed.

(** An instance of the parts of the filter passes every condition that
    [get_candidates] derives from those parts. *)
Lemma inst_conditions (ps : list string) (multi : bool) (t : string) :
  Inst ps multi t ->
  startswith (hd "" ps) t
  && (if multi then str_in (last ps "") t else endswith (last ps "") t)
  && forallb (fun part => str_in part t) (interior ps) = true.
Proof.
  intros I. assert (N : ps <> []) by (destruct ps; [destruct I | discriminate]).
  rewrite (inst_hd _ _ _ I). cbn [andb]. apply andb_true_iff. split.
  - destruct multi.
    + apply (inst_all _ _ _ I). now apply last_in.
    + now apply inst_last_exact.
  - apply forallb_forall. intros p Ip. apply (inst_all _ _ _ I).
    now apply interior_in.
Qed.

(** ** The prefilter is necessary for covering *)

Lemma body_plus (parts : list string) :
  body parts = str WILDCARD_SINGLE_LEVEL -> parts = [str WILDCARD_SINGLE_LEVEL].
Proof.
  destruct parts as [|p [|q rest]]; cbn [body].
  - discriminate.
  - destruct (p =? str WILDCARD_MULTI_LEVEL); [discriminate | now intros ->].
  - intros H. destruct p as [|c [|c' p]]; simpl in H; discriminate.
Qed.

(** Whatever a filter obeying the grammar covers passes its prefilter. *)
Lemma covers_prefilter (self comp : Topic.t) :
  TopicGrammar (Topic.name self) = true ->
  Topic.__contains__ self (Topic.Obj_Topic comp) = true ->
  prefilter self (Topic.name comp) = true.
Proof.
  intros G C. unfold TopicGrammar in G.
  set (fs := split TOPIC_SEP (Topic.name self)) in *.
  set (ts := split TOPIC_SEP (Topic.name comp)).
  assert (Nfs : fs <> []) by apply split_not_nil.
  destruct (body_spec fs Nfs G) as [Em Eb].
  unfold fs in Em, Eb. rewrite join_split in Em, Eb. fold fs in Em, Eb.
  assert (W : exists w,
             (List.length fs <= List.length ts)%nat
             /\ (ends_multi fs = false -> List.length ts = List.length fs)
             /\ Topic.walk w fs ts = true).
  { destruct (string_dec (Topic.name self) (Topic.name comp)) as [E|N].
    - exists true. unfold ts. rewrite <- E. fold fs.
      split; [lia | split; [reflexivity | apply walk_refl]].
    - destruct (contains_inv _ _ C N) as (_ & _ & _ & L & X & Wk).
      exists (Topic.is_wildcard comp). rewrite Em in X. auto. }
  destruct W as (w & L & X & Wk).
  pose proof (walk_inst w fs ts "" Nfs G L X Wk eq_refl) as I.
  unfold ts in I. rewrite join_split in I. cbn [append] in I.
  unfold prefilter. rewrite Eb, Em.
  set (parts := split WILDCARD_SINGLE_LEVEL (body fs)) in *.
  destruct (List.length parts =? 1)%nat eqn:L1.
  - destruct (negb (String.length (body fs) =? 0)%nat); [|reflexivity].
    pose proof (join_split WILDCARD_SINGLE_LEVEL (body fs)) as J. fold parts in J.
    apply Nat.eqb_eq in L1.
    destruct parts as [|x [|y parts']]; try discriminate.
    cbn [join] in J. subst x. exact (inst_hd _ _ _ I).
  - destruct (String.eqb_spec (body fs) (str WILDCARD_SINGLE_LEVEL)) as [B|_].
    + apply body_plus in B. rewrite B in X. specialize (X eq_refl).
      rewrite <- split_single. fold ts. rewrite X. reflexivity.
    + now apply inst_conditions.
Qed.

(** C9: for a wildcard filter whose name obeys the topic grammar, each
    stored topic flagged non-wildcard and of the dollar class of the filter
    that the filter covers passes the prefix, suffix and containment
    conditions derived from the literal parts of the filter, hence is among
    the rows [get_candidates] returns; and iterating the filter yields, in
    table order, exactly the stored topics so flagged that the filter
    covers. *)
Theorem C9_prefilter_is_necessary :
  forall (objects : list Topic.t) (self : Topic.t),
    Topic.is_wildcard self = true ->
    TopicGrammar (Topic.name self) = true ->
    (forall row, In row objects ->
       Topic.wildcard row = false ->
       Topic.dollar row = Topic.is_dollar self ->
       Topic.__contains__ self (Topic.Obj_Topic row) = true ->
       prefilter self (Topic.name row) = true
       /\ In row (Topic.get_candidates objects self))
    /\ Topic.__iter__ objects self
       = filter (fun row => negb (Topic.wildcard row)
                            && Bool.eqb (Topic.dollar row) (Topic.is_dollar self)
                            && Topic.__contains__ self (Topic.Obj_Topic row))
                objects.
Proof.
  intros objects self W G. split.
  - intros row I Fw Fd C.
    pose proof (covers_prefilter self row G C) as P.
    split; [exact P|].
    rewrite get_candidates_spec. apply filter_In. split; [exact I|].
    unfold same_class. now rewrite P, Fw, Fd, Bool.eqb_reflx.
  - unfold Topic.__iter__. rewrite W. cbn [negb].
    rewrite get_candidates_spec, filter_filter.
    apply filter_ext. intros row. unfold same_class.
    destruct (Topic.__contains__ self (Topic.Obj_Topic row)) eqn:C.
    + rewrite (covers_prefilter self row G C).
      now rewrite !andb_true_r, andb_comm.
    + now rewrite !andb_false_r.
Qed.

End Prefilter.

Lemma C9_prefilter_is_necessary_witness :
  (Invariants.prefilter (Topic.of_name "a/+/+") "a/c/d" = true
   /\ In Examples.a_c_d (Topic.get_candidates Examples.table (Topic.of_name "a/+/+")))
  /\ Topic.__iter__ Examples.table (Topic.of_name "a/+/+") = [Examples.a_c_d].
Proof.
  destruct (C9_prefilter_is_necessary Examples.table (Topic.of_name "a/+/+")
              eq_refl eq_refl) as [H1 H2].
  split.
  - apply (H1 Examples.a_c_d); [|reflexivity..].
    right. right. now left.
  - rewrite H2. reflexivity.
Defined.

(** * The covering relation as an order *)

Section CoveringOrder.
Import Protocol PyStr Invariants Topic.

(** The conditions under which [__contains__] answers [True]. *)
Lemma contains_intro (self comp : t) :
  truth comp = true ->
  is_wildcard self = true ->
  is_dollar self = is_dollar comp ->
  (is_dollar self = true ->
   hd "" (split TOPIC_SEP (name self)) = hd "" (split TOPIC_SEP (name comp))) ->
  (List.length (split TOPIC_SEP (name self))
   <= List.length (split TOPIC_SEP (name comp)))%nat ->
  (endswith (str WILDCARD_MULTI_LEVEL) (name self) = false ->
   List.length (split TOPIC_SEP (name comp))
   = List.length (split TOPIC_SEP (name self))) ->
  walk (is_wildcard comp) (split TOPIC_SEP (name self))
       (split TOPIC_SEP (name comp)) = true ->
  __contains__ self (Obj_Topic comp) = true.
Proof.
  intros T W D H L X Wk. unfold __contains__. cbn [as_topic __eq__].
  rewrite T, W. cbn [negb].
  destruct (name self =? name comp); [reflexivity|].
  rewrite <- D.
  replace (is_dollar self && negb (is_dollar self)
           || is_dollar self && negb (is_dollar self)) with false
    by now destruct (is_dollar self).
  destruct (is_dollar self) eqn:Ds.
  - rewrite (H eq_refl), String.eqb_refl. cbn [negb andb].
    destruct (Nat.ltb_spec (List.length (split TOPIC_SEP (name comp)))
                           (List.length (split TOPIC_SEP (name self)))); [lia|].
    destruct (endswith (str WILDCARD_MULTI_LEVEL) (name self)); cbn [negb andb].
    + exact Wk.
    + rewrite (X eq_refl), Nat.ltb_irrefl. exact Wk.
  - cbn [andb].
    destruct (Nat.ltb_spec (List.length (split TOPIC_SEP (name comp)))
                           (List.length (split TOPIC_SEP (name self)))); [lia|].
    destruct (endswith (str WILDCARD_MULTI_LEVEL) (name self)); cbn [negb andb].
    + exact Wk.
    + rewrite (X eq_refl), Nat.ltb_irrefl. exact Wk.
Qed.

(** A dollar filter and what it covers start with the same segment. *)
Lemma contains_hd (self comp : t) :
  __contains__ self (Obj_Topic comp) = true ->
  is_dollar self = true ->
  hd "" (split TOPIC_SEP (name self)) = hd "" (split TOPIC_SEP (name comp)).
Proof.
  intros C D.
  destruct (string_dec (name self) (name comp)) as [E|N]; [now rewrite E|].
  revert C. unfold __contains__. cbn [as_topic __eq__].
  apply String.eqb_neq in N. rewrite N, D.
  destruct (truth comp); cbn [negb]; [|discriminate].
  destruct (is_wildcard self); cbn [negb]; [|discriminate].
  destruct (is_dollar comp); cbn [negb andb orb]; [|discriminate].
  destruct (String.eqb_spec (hd "" (split TOPIC_SEP (name self)))
                            (hd "" (split TOPIC_SEP (name comp)))) as [E|_];
    [auto | discriminate].
Qed.

(** Two walks compose. *)
Lemma walk_trans (w : bool) : forall a b c,
  walk true a b = true -> walk w b c = true ->
  (List.length a <= List.length b)%nat ->
  walk w a c = true.
Proof.
  induction a as [|p a IH]; intros [|q b] [|r c] W1 W2 L;
    try reflexivity; try discriminate; simpl in L; try lia.
  cbn [walk] in *. cbn [andb] in W1.
  assert (L' : (List.length a <= List.length b)%nat) by lia.
  destruct (String.eqb_spec p (str WILDCARD_SINGLE_LEVEL)) as [->|Np].
  - destruct (String.eqb_spec q (str WILDCARD_MULTI_LEVEL)) as [->|Nq];
      [discriminate|].
    destruct (String.eqb_spec q (str WILDCARD_SINGLE_LEVEL)) as [->|Nq'].
    + destruct (w && (r =? str WILDCARD_MULTI_LEVEL)); [discriminate|].
      now apply (IH b c).
    + destruct (String.eqb_spec q r) as [->|Nqr]; [|discriminate].
      cbn [negb] in W2.
      apply String.eqb_neq in Nq. rewrite Nq, andb_false_r.
      now apply (IH b c).
  - destruct (String.eqb_spec p (str WILDCARD_MULTI_LEVEL)) as [->|Np'];
      [reflexivity|].
    destruct (String.eqb_spec p q) as [->|Npq]; [|discriminate].
    cbn [negb] in W1.
    apply String.eqb_neq in Np, Np'. rewrite Np, Np' in W2.
    destruct (String.eqb_spec q r) as [->|Nqr]; [|discriminate].
    cbn [negb] in *. now apply (IH b c).
Qed.

(** A filter without trailing [#] covers wildcard topics without
    trailing [#] only. *)
Lemma walk_last : forall a b,
  grammar a = true ->
  walk true a b = true -> List.length a = List.length b ->
  ends_multi a = false -> ends_multi b = false.
Proof.
  induction a as [|p a IH]; intros [|q b] G W L E; try discriminate;
    [reflexivity|].
  injection L as L. cbn [walk andb] in W.
  destruct a as [|p' a], b as [|q' b]; try discriminate.
  - unfold ends_multi in *. cbn [last] in *.
    destruct (String.eqb_spec p (str WILDCARD_SINGLE_LEVEL)) as [->|Np].
    + destruct (q =? str WILDCARD_MULTI_LEVEL); [discriminate | reflexivity].
    + rewrite E in W. destruct (String.eqb_spec p q) as [->|]; [exact E | discriminate].
  - destruct (grammar_tail _ _ _ G) as [Np G'].
    rewrite ends_multi_tail in *.
    apply (IH (q' :: b) G'); auto.
    destruct (p =? str WILDCARD_SINGLE_LEVEL).
    + destruct (q =? str WILDCARD_MULTI_LEVEL); [discriminate | exact W].
    + apply String.eqb_neq in Np. rewrite Np in W.
      destruct (negb (p =? q)); [discriminate | exact W].
Qed.

Lemma grammar_endswith (n : string) :
  TopicGrammar n = true ->
  endswith (str WILDCARD_MULTI_LEVEL) n = ends_multi (split TOPIC_SEP n).
Proof.
  intros G. destruct (body_spec (split TOPIC_SEP n) (split_not_nil _ _) G) as [E _].
  now rewrite join_split in E.
Qed.

(** X1: the covering test reads the two names and nothing else: topics
    equal in the sense of [__eq__] (same name, whatever the key and the
    stored flags) are interchangeable on either side, and a string stands
    for the topic of that name. *)
Theorem X1_covering_respects_equality :
  forall self self' comp comp' : t,
    __eq__ self (Obj_Topic self') = true ->
    __eq__ comp (Obj_Topic comp') = true ->
    __contains__ self (Obj_Topic comp) = __contains__ self' (Obj_Topic comp')
    /\ __contains__ self (Obj_str (name comp)) = __contains__ self' (Obj_Topic comp')
    /\ __contains__ self (Obj_bytes (name comp)) = __contains__ self' (Obj_Topic comp').
Proof.
  intros self self' comp comp' E1 E2. cbn [__eq__] in E1, E2.
  apply String.eqb_eq in E1, E2.
  assert (H : forall x, name x = name comp' ->
            __contains__ self (Obj_Topic x) = __contains__ self' (Obj_Topic comp'))
    by (intros x Ex; now apply contains_names).
  split; [|split].
  - now apply H.
  - rewrite contains_str. now apply H.
  - change (__contains__ self (Obj_bytes (name comp)))
      with (__contains__ self (Obj_Topic (of_name (name comp)))). now apply H.
Qed.

Lemma X1_covering_respects_equality_witness :
  __contains__ Samples.sport_hash (Obj_Topic Samples.sport)
  = __contains__ (of_name "sport/#") (Obj_Topic (of_name "sport/tennis")).
Proof.
  apply (X1_covering_respects_equality Samples.sport_hash (of_name "sport/#")
           Samples.sport (of_name "sport/tennis")); reflexivity.
Defined.

(** X2: a topic with a non-empty name covers itself, one with an empty
    name does not; and a filter without wildcard covers a topic exactly
    when the names are equal and not empty. *)
Theorem X2_exact_match :
  (forall self : t, __contains__ self (Obj_Topic self) = truth self)
  /\ (forall self comp : t,
      is_wildcard self = false ->
      (__contains__ self (Obj_Topic comp) = true
       <-> name self = name comp /\ name comp <> "")).
Proof.
  split.
  - intros self. unfold __contains__. cbn [as_topic __eq__].
    rewrite String.eqb_refl. now destruct (truth self).
  - intros self comp W. unfold __contains__. cbn [as_topic __eq__].
    rewrite W. cbn [negb]. rewrite <- truth_nonempty.
    destruct (truth comp); cbn [negb].
    + destruct (String.eqb_spec (name self) (name comp)) as [E|N].
      * tauto.
      * split; [discriminate | intros [E _]; contradiction].
    + split; [discriminate | intros [_ H]; discriminate].
Qed.

Lemma X2_exact_match_witness :
  __contains__ Samples.sport (Obj_Topic (of_name "sport/tennis")) = true
  <-> "sport/tennis" = "sport/tennis" /\ "sport/tennis" <> "".
Proof.
  apply (proj2 X2_exact_match Samples.sport (of_name "sport/tennis")). reflexivity.
Defined.

(** X3: on names that obey the topic grammar covering is antisymmetric:
    two topics that cover each other have the same name. *)
Theorem X3_covering_antisymmetric :
  forall a b : t,
    TopicGrammar (name a) = true -> TopicGrammar (name b) = true ->
    __contains__ a (Obj_Topic b) = true ->
    __contains__ b (Obj_Topic a) = true ->
    __eq__ a (Obj_Topic b) = true.
Proof.
  intros a b Ga Gb Cab Cba. cbn [__eq__]. apply String.eqb_eq.
  now apply contains_antisym.
Qed.

Lemma X3_covering_antisymmetric_witness :
  __eq__ Samples.sport_plus (Obj_Topic (of_name "sport/+")) = true.
Proof.
  apply (X3_covering_antisymmetric Samples.sport_plus (of_name "sport/+"));
    reflexivity.
Defined.

(** X4: on names that obey the topic grammar covering is transitive: a
    filter that covers a filter covers whatever the latter covers. *)
Theorem X4_covering_transitive :
  forall a b c : t,
    TopicGrammar (name a) = true -> TopicGrammar (name b) = true ->
    __contains__ a (Obj_Topic b) = true ->
    __contains__ b (Obj_Topic c) = true ->
    __contains__ a (Obj_Topic c) = true.
Proof.
  intros a b c Ga Gb Cab Cbc.
  destruct (string_dec (name a) (name b)) as [Eab|Nab].
  { now rewrite (contains_names a b c c Eab eq_refl). }
  destruct (string_dec (name b) (name c)) as [Ebc|Nbc].
  { now rewrite (contains_names a a c b eq_refl (eq_sym Ebc)). }
  destruct (contains_inv _ _ Cab Nab) as (Wa & _ & Dab & Lab & Xab & Wab).
  destruct (contains_inv _ _ Cbc Nbc) as (Wb & Tc & Dbc & Lbc & Xbc & Wbc).
  rewrite Wb in Wab.
  apply contains_intro; auto.
  - congruence.
  - intros Da. rewrite (contains_hd _ _ Cab Da).
    apply (contains_hd _ _ Cbc). congruence.
  - lia.
  - intros Ea. pose proof (Xab Ea) as Lba.
    rewrite Xbc; [exact Lba|].
    rewrite (grammar_endswith _ Gb). rewrite (grammar_endswith _ Ga) in Ea.
    apply (walk_last _ _ Ga Wab); [now symmetry | exact Ea].
  - now apply (walk_trans _ _ (split TOPIC_SEP (name b))).
Qed.

Lemma X4_covering_transitive_witness :
  __contains__ Samples.plus_plus (Obj_Topic Samples.sport) = true.
Proof.
  apply (X4_covering_transitive Samples.plus_plus Samples.sport_plus Samples.sport);
    reflexivity.
Defined.

End CoveringOrder.

(** * Subtree filters *)

Section Subtree.
Import Protocol PyStr Invariants Topic.

Lemma split_app_sep (sep : ascii) (a b : string) :
  split sep (a ++ String sep b) = (split sep a ++ split sep b)%list.
Proof.
  induction a as [|c a IH]; simpl.
  - now rewrite Ascii.eqb_refl.
  - rewrite IH. destruct (Ascii.eqb c sep); [reflexivity|].
    destruct (split sep a) eqn:E; [now destruct (split_not_nil sep a)|].
    reflexivity.
Qed.

Lemma join_app (sep : ascii) : forall ps rest : list string,
  ps <> [] -> rest <> [] ->
  join sep (ps ++ rest) = join sep ps ++ String sep (join sep rest).
Proof.
  induction ps as [|p ps IH]; intros rest Np Nr; [congruence|].
  destruct ps as [|p' ps].
  - simpl app. now rewrite join_cons.
  - change ((p :: p' :: ps) ++ rest)%list with (p :: ((p' :: ps) ++ rest))%list.
    rewrite join_cons by discriminate.
    rewrite IH by (discriminate || assumption).
    rewrite (join_cons sep p (p' :: ps)) by discriminate.
    now rewrite append_assoc.
Qed.

(** A character of a segment is a character of the name. *)
Lemma segment_char (sep c : ascii) : forall (s seg : string),
  In seg (split sep s) -> str_in (str c) seg = true -> str_in (str c) s = true.
Proof.
  induction s as [|x s IH]; intros seg I H.
  - destruct I as [<- | []]. exact H.
  - rewrite str_in_char. simpl split in I.
    destruct (Ascii.eqb x sep).
    + destruct I as [<- | I]; [discriminate|].
      rewrite (IH seg I H). apply orb_true_r.
    + destruct (split sep s) as [|h t] eqn:E; [now destruct (split_not_nil sep s)|].
      destruct I as [<- | I].
      * rewrite str_in_char in H. apply orb_true_iff in H as [H|H].
        -- now rewrite H.
        -- rewrite (IH h (or_introl eq_refl) H). apply orb_true_r.
      * rewrite (IH seg (or_intror I) H). apply orb_true_r.
Qed.

Lemma plain_segments (n : string) :
  plain n = true ->
  forall seg, In seg (split TOPIC_SEP n) ->
    seg <> str WILDCARD_SINGLE_LEVEL /\ seg <> str WILDCARD_MULTI_LEVEL.
Proof.
  intros P seg I. pose proof (plain_no_plus _ P) as Fp.
  pose proof (plain_no_hash _ P) as Fh.
  split; intros ->.
  - rewrite (segment_char TOPIC_SEP WILDCARD_SINGLE_LEVEL n _ I eq_refl) in Fp.
    discriminate.
  - rewrite (segment_char TOPIC_SEP WILDCARD_MULTI_LEVEL n _ I eq_refl) in Fh.
    discriminate.
Qed.

Lemma startswith_inv : forall p s,
  startswith p s = true -> exists r, s = p ++ r.
Proof.
  induction p as [|c p IH]; intros s H.
  - now exists s.
  - destruct s as [|x s]; [discriminate|]. simpl in H.
    apply andb_true_iff in H as [Hc Hs]. apply Ascii.eqb_eq in Hc. subst x.
    destruct (IH s Hs) as [r ->]. now exists r.
Qed.

Lemma startswith_char_app (c : ascii) (a b : string) :
  a <> "" -> startswith (str c) (a ++ b) = startswith (str c) a.
Proof. destruct a; [congruence | reflexivity]. Qed.

Lemma walk_prefix (w : bool) : forall ps rest : list string,
  (forall p, In p ps ->
     p <> str WILDCARD_SINGLE_LEVEL /\ p <> str WILDCARD_MULTI_LEVEL) ->
  rest <> [] ->
  walk w (ps ++ [str WILDCARD_MULTI_LEVEL]) (ps ++ rest) = true.
Proof.
  induction ps as [|p ps IH]; intros rest Lit N.
  - destruct rest; [congruence | reflexivity].
  - simpl app. cbn [walk].
    destruct (Lit p (or_introl eq_refl)) as [N1 N2].
    apply String.eqb_neq in N1, N2. rewrite N1, N2, String.eqb_refl.
    cbn [negb]. apply IH; auto. intros q I. apply Lit. now right.
Qed.

Lemma walk_prefix_inv (w : bool) : forall ps ts : list string,
  (forall p, In p ps ->
     p <> str WILDCARD_SINGLE_LEVEL /\ p <> str WILDCARD_MULTI_LEVEL) ->
  walk w (ps ++ [str WILDCARD_MULTI_LEVEL]) ts = true ->
  exists rest, ts = (ps ++ rest)%list /\ rest <> [].
Proof.
  induction ps as [|p ps IH]; intros ts Lit W.
  - destruct ts; [discriminate|]. eexists. split; [reflexivity | discriminate].
  - destruct ts as [|t ts]; [discriminate|].
    simpl app in W. cbn [walk] in W.
    destruct (Lit p (or_introl eq_refl)) as [N1 N2].
    apply String.eqb_neq in N1, N2. rewrite N1, N2 in W.
    destruct (String.eqb_spec p t) as [->|]; [|discriminate].
    cbn [negb] in W.
    destruct (IH ts) as (rest & -> & N); auto.
    + intros q I. apply Lit. now right.
    + exists rest. split; [reflexivity | exact N].
Qed.

(** X5: for a filter made of a wildcard-free prefix [P] followed by
    [/#], covering is a prefix test: the filter covers a topic exactly when
    the name of the topic starts with [P/], whatever the stored flags. *)
Theorem X5_subtree_filter_is_prefix_test :
  forall (P : string) (self comp : t),
    plain P = true ->
    name self = P ++ "/#" ->
    __contains__ self (Obj_Topic comp) = startswith (P ++ "/") (name comp).
Proof.
  intros P self comp Pl E.
  pose proof (plain_segments P Pl) as Lit.
  assert (Sself : split TOPIC_SEP (name self)
                  = (split TOPIC_SEP P ++ [str WILDCARD_MULTI_LEVEL])%list)
    by (rewrite E; apply (split_app_sep TOPIC_SEP P "#")).
  assert (Eassoc : P ++ "/#" = (P ++ "/") ++ "#") by now rewrite append_assoc.
  apply eq_true_iff_eq. split.
  - intros C.
    destruct (string_dec (name self) (name comp)) as [Eq|N].
    + rewrite <- Eq, E, Eassoc. apply startswith_app.
    + destruct (contains_inv _ _ C N) as (_ & _ & _ & _ & _ & W).
      rewrite Sself in W.
      destruct (walk_prefix_inv _ _ _ Lit W) as (rest & Ets & Nr).
      rewrite <- (join_split TOPIC_SEP (name comp)), Ets.
      rewrite join_app by (apply split_not_nil || exact Nr).
      rewrite join_split.
      change (P ++ String TOPIC_SEP (join TOPIC_SEP rest))
        with (P ++ "/" ++ join TOPIC_SEP rest).
      rewrite <- append_assoc. apply startswith_app.
  - intros S. apply startswith_inv in S as [R ER].
    assert (NP : P ++ "/" <> "") by (destruct P; discriminate).
    assert (Scomp : split TOPIC_SEP (name comp)
                    = (split TOPIC_SEP P ++ split TOPIC_SEP R)%list).
    { rewrite ER, append_assoc. apply (split_app_sep TOPIC_SEP P R). }
    apply contains_intro.
    + apply truth_nonempty. rewrite ER. destruct P; discriminate.
    + unfold is_wildcard. rewrite E, str_in_char_app.
      change (str_in (str WILDCARD_MULTI_LEVEL) "/#") with true.
      now rewrite orb_true_r.
    + unfold is_dollar. rewrite E, ER, Eassoc.
      now rewrite (startswith_char_app _ (P ++ "/") "#" NP),
        (startswith_char_app _ (P ++ "/") R NP).
    + intros _. rewrite Sself, Scomp.
      destruct (split TOPIC_SEP P) eqn:SP;
        [now destruct (split_not_nil TOPIC_SEP P) | reflexivity].
    + rewrite Sself, Scomp, !length_app. simpl.
      pose proof (split_not_nil TOPIC_SEP R).
      destruct (split TOPIC_SEP R); [congruence | simpl; lia].
    + intros F. rewrite E, Eassoc, endswith_app in F. discriminate.
    + rewrite Sself, Scomp. apply walk_prefix; [exact Lit | apply split_not_nil].
Qed.

Lemma X5_subtree_filter_is_prefix_test_witness :
  __contains__ Samples.sport_hash (Obj_Topic Samples.sport)
  = startswith "sport/" "sport/tennis".
Proof.
  apply (X5_subtree_filter_is_prefix_test "sport" Samples.sport_hash Samples.sport);
    reflexivity.
Defined.

End Subtree.

(** * The ordering operators and iteration *)

Section Operators.
Import Protocol PyStr Invariants.

(** X6: between topic instances [a < b] is [b > a], and both say that
    [b] is a wildcard that covers [a]; so a wildcard topic is below itself
    and a topic without wildcard is not.  The rule operators inherit this
    from the topics of the rules. *)
Theorem X6_less_than_is_covered_by_wildcard :
  (forall a b : Topic.t,
      Topic.__lt__ a (Topic.Obj_Topic b)
      = Topic.is_wildcard b && Topic.__contains__ b (Topic.Obj_Topic a)
      /\ Topic.__gt__ b (Topic.Obj_Topic a) = Topic.__lt__ a (Topic.Obj_Topic b))
  /\ (forall a : Topic.t, Topic.__lt__ a (Topic.Obj_Topic a) = Topic.is_wildcard a)
  /\ (forall r r' : ACL.t,
      ACL.__gt__ r' r = ACL.__lt__ r r'
      /\ ACL.__lt__ r r'
         = Topic.is_wildcard (ACL.topic r')
           && Topic.__contains__ (ACL.topic r') (Topic.Obj_Topic (ACL.topic r))).
Proof.
  assert (H : forall a b : Topic.t,
             Topic.__lt__ a (Topic.Obj_Topic b)
             = Topic.is_wildcard b && Topic.__contains__ b (Topic.Obj_Topic a)
             /\ Topic.__gt__ b (Topic.Obj_Topic a) = Topic.__lt__ a (Topic.Obj_Topic b)).
  { intros a b. unfold Topic.__lt__, Topic.__gt__. cbn [Topic.as_topic].
    destruct (Topic.is_wildcard b) eqn:W.
    - rewrite (wildcard_truth _ W). split; reflexivity.
    - rewrite orb_true_r. split; reflexivity. }
  split; [exact H | split].
  - intros a. rewrite (proj1 (H a a)).
    destruct (Topic.is_wildcard a) eqn:W; [|reflexivity].
    apply contains_same_name; [reflexivity|].
    apply truth_nonempty. now apply wildcard_truth.
  - intros r r'. unfold ACL.__gt__, ACL.__lt__.
    destruct (H (ACL.topic r) (ACL.topic r')) as [H1 H2]. now rewrite H2, H1.
Qed.

(** X7: against a string the operator [>] answers [False] whatever the
    topic and the string: [Topic(other)] puts the string in the key and
    leaves the name empty, and an empty name is covered by nothing.  The
    operator [<] and the [bytes] branch of [>] do build the topic of that
    name. *)
Theorem X7_greater_than_string_is_false :
  (forall (self : Topic.t) (s : string), Topic.__gt__ self (Topic.Obj_str s) = false)
  /\ (forall (self : Topic.t) (s : string),
      Topic.__gt__ self (Topic.Obj_bytes s)
      = Topic.__gt__ self (Topic.Obj_Topic (Topic.of_name s)))
  /\ (forall (self : Topic.t) (s : string),
      Topic.__lt__ self (Topic.Obj_str s)
      = Topic.__lt__ self (Topic.Obj_Topic (Topic.of_name s))).
Proof.
  split; [|split; reflexivity].
  intros self s. unfold Topic.__gt__.
  destruct (Topic.is_wildcard self); [|reflexivity].
  now apply empty_name_not_covered.
Qed.



End Operators.

(** * Resolution: what is returned, and when nothing is *)

Section ResolutionFacts.
Import Protocol PyStr Invariants.

Variable TopicValidator : string -> bool.

Lemma filter_nil {A : Type} (f : A -> bool) (rows : list A) :
  filter f rows = [] <-> forall row, In row rows -> f row = false.
Proof.
  induction rows as [|r rows IH]; simpl; [tauto|].
  destruct (f r) eqn:F.
  - split; [discriminate|]. intros H. rewrite (H r (or_introl eq_refl)) in F.
    discriminate.
  - rewrite IH. split; [intros H row [<- | I]; auto | intros H row I; auto].
Qed.

(** Under a uniqueness constraint a lookup by key selects at most one row. *)
Lemma filter_at_most_one {A K : Type} (key : A -> K) (select : A -> bool) (k : K) :
  forall rows : list A,
    NoDup (map key rows) ->
    (forall r, select r = true -> key r = k) ->
    filter select rows = [] \/ exists r, filter select rows = [r].
Proof.
  induction rows as [|r rows IH]; intros ND S; [now left|].
  simpl in ND. inversion ND as [|? ? NI ND']; subst. simpl.
  destruct (select r) eqn:Sr.
  - right. exists r. f_equal. apply filter_nil. intros x Ix.
    destruct (select x) eqn:Sx; [|reflexivity].
    exfalso. apply NI. rewrite (S r Sr), <- (S x Sx). now apply in_map.
  - now apply IH.
Qed.

Lemma exact_filter_key (topic_ : Topic.t) (acc_ : Z) (r : ACL.t) :
  ACL.on_topic topic_ r && Z.eqb (ACL.acc r) acc_ = true ->
  rule_key r = (Topic.pk topic_, acc_).
Proof.
  intros H. apply andb_true_iff in H as [H1 H2]. apply Z.eqb_eq in H2.
  unfold rule_key, ACL.on_topic, Topic.same_pk, Topic.pk_is in *.
  destruct (Topic.pk topic_) as [k|]; [|discriminate].
  destruct (Topic.pk (ACL.topic r)) as [k'|]; [|discriminate].
  apply Z.eqb_eq in H1. now subst.
Qed.

Lemma objects_get_classify (store : ACL.Store) (topic_ : Topic.t) (acc_ : Z) :
  unique_together store ->
  (ACL.objects_get store topic_ acc_ = Raise DoesNotExist
   /\ forall r, In r (ACL.rules store) ->
        ACL.on_topic topic_ r && Z.eqb (ACL.acc r) acc_ = false)
  \/ exists r, ACL.objects_get store topic_ acc_ = Ok r
               /\ In r (ACL.rules store)
               /\ ACL.on_topic topic_ r = true /\ ACL.acc r = acc_.
Proof.
  intros U. unfold ACL.objects_get.
  destruct (filter_at_most_one rule_key
              (fun r => ACL.on_topic topic_ r && Z.eqb (ACL.acc r) acc_)
              (Topic.pk topic_, acc_) (ACL.rules store) U) as [E | [r E]].
  - intros r. apply exact_filter_key.
  - rewrite E. left. split; [reflexivity|]. now apply filter_nil.
  - rewrite E. right. exists r. split; [reflexivity|].
    assert (I : In r (filter (fun r => ACL.on_topic topic_ r && Z.eqb (ACL.acc r) acc_)
                             (ACL.rules store))) by (rewrite E; now left).
    apply filter_In in I as [I S]. apply andb_true_iff in S as [S1 S2].
    apply Z.eqb_eq in S2. auto.
Qed.

Lemma objects_get_ok (store : ACL.Store) (topic_ : Topic.t) (acc_ : Z) (r : ACL.t) :
  ACL.objects_get store topic_ acc_ = Ok r ->
  In r (ACL.rules store) /\ ACL.on_topic topic_ r = true /\ ACL.acc r = acc_.
Proof.
  unfold ACL.objects_get.
  destruct (filter _ (ACL.rules store)) as [|x [|y l]] eqn:E; try discriminate.
  intros H. injection H as ->.
  assert (I : In r (filter (fun r => ACL.on_topic topic_ r && Z.eqb (ACL.acc r) acc_)
                           (ACL.rules store))) by (rewrite E; now left).
  apply filter_In in I as [I S]. apply andb_true_iff in S as [S1 S2].
  apply Z.eqb_eq in S2. auto.
Qed.

(** The rule that [resolve] returns governs the topic. *)
Lemma resolve_sound (store : ACL.Store) (topic_ : Topic.t) (acc_ : Z) (rule : ACL.t) :
  ACL.resolve store topic_ acc_ = Ok (Some rule) ->
  In rule (ACL.rules store) /\ ACL.acc rule = acc_
  /\ (ACL.on_topic topic_ rule = true
      \/ Topic.wildcard (ACL.topic rule) = true
         /\ Topic.__contains__ (ACL.topic rule) (Topic.Obj_Topic topic_) = true).
Proof.
  unfold ACL.resolve.
  destruct (ACL.objects_get store topic_ acc_) as [r|e] eqn:G.
  - intros H. injection H as ->.
    destruct (objects_get_ok _ _ _ _ G) as (I & T & A). auto.
  - destruct e; try discriminate.
    destruct (ACL.covering store topic_ acc_) as [|first rest] eqn:C;
      [discriminate|].
    intros H. injection H as <-.
    pose proof (py_min_in ACL.__lt__ rest first) as I. rewrite <- C in I.
    destruct (covering_in _ _ _ _ I) as (Ir & W & A & Cv). auto.
Qed.

Lemma topic_get_ok (objects : list Topic.t) (s : string) (row : Topic.t) :
  Topic.objects_get objects s = Ok row -> In row objects /\ Topic.name row = s.
Proof.
  unfold Topic.objects_get.
  destruct (filter _ objects) as [|x [|y l]] eqn:E; try discriminate.
  intros H. injection H as ->.
  assert (I : In row (filter (fun r => Topic.name r =? s) objects))
    by (rewrite E; now left).
  apply filter_In in I as [I S]. apply String.eqb_eq in S. auto.
Qed.

(** X9: a rule returned by [get_acl] is a stored rule for the access
    kind asked for that governs the topic: either it is keyed by the topic
    (for a string, by the stored topic of that name), or its topic is
    flagged wildcard and covers the topic. *)
Theorem X9_resolution_returns_a_governing_rule :
  forall (store : ACL.Store) (acc_ : Z) (rule : ACL.t),
    (forall (topic_ : Topic.t) (store' : ACL.Store),
        ACL.get_acl TopicValidator store (Topic.Obj_Topic topic_) acc_
        = (store', Ok (Some rule)) ->
        In rule (ACL.rules store) /\ ACL.acc rule = acc_
        /\ (ACL.on_topic topic_ rule = true
            \/ Topic.wildcard (ACL.topic rule) = true
               /\ Topic.__contains__ (ACL.topic rule) (Topic.Obj_Topic topic_) = true))
    /\ (forall (s : string) (store' : ACL.Store),
        ACL.get_acl TopicValidator store (Topic.Obj_str s) acc_
        = (store', Ok (Some rule)) ->
        In rule (ACL.rules store) /\ ACL.acc rule = acc_
        /\ ((exists found, In found (ACL.topics store') /\ Topic.name found = s
                           /\ ACL.on_topic found rule = true)
            \/ Topic.wildcard (ACL.topic rule) = true
               /\ Topic.__contains__ (ACL.topic rule) (Topic.Obj_str s) = true)).
Proof.
  intros store acc_ rule. split.
  - intros topic_ store' H. unfold ACL.get_acl in H. injection H as _ H.
    now apply resolve_sound.
  - intros s store' H. unfold ACL.get_acl in H.
    pose proof (get_or_create_effect TopicValidator (ACL.topics store) s) as Eff.
    destruct (Topic.get_or_create TopicValidator (ACL.topics store) s)
      as [[[found is_new]|e] topics']; [|discriminate].
    injection H as <- H.
    destruct (resolve_sound _ _ _ _ H) as (I & A & G).
    assert (F : In found topics' /\ Topic.name found = s).
    { destruct is_new.
      - destruct Eff as (-> & En & _). split; [|exact En].
        apply in_or_app. right. now left.
      - destruct Eff as (-> & Eg). now apply topic_get_ok. }
    destruct F as [If En].
    split; [exact I | split; [exact A|]].
    destruct G as [G | [W C]].
    + left. exists found. auto.
    + right. split; [exact W|]. rewrite contains_str.
      now rewrite (contains_names _ (ACL.topic rule) _ found eq_refl).
Qed.


(** X10: under the uniqueness constraint on (topic, access kind),
    resolving a [Topic] instance never raises and leaves the store as it
    is; and it returns [None] exactly when no stored rule for the access
    kind is keyed by the topic and none flagged wildcard covers it. *)
Theorem X10_no_rule_exactly_when_none_governs :
  forall (store : ACL.Store) (topic_ : Topic.t) (acc_ : Z),
    unique_together store ->
    exists answer,
      ACL.get_acl TopicValidator store (Topic.Obj_Topic topic_) acc_
      = (store, Ok answer)
      /\ (answer = None
          <-> forall rule, In rule (ACL.rules store) -> ACL.acc rule = acc_ ->
                ACL.on_topic topic_ rule = false
                /\ (Topic.wildcard (ACL.topic rule) = true ->
                    Topic.__contains__ (ACL.topic rule) (Topic.Obj_Topic topic_)
                    = false)).
Proof.
  intros store topic_ acc_ U. unfold ACL.get_acl, ACL.resolve.
  destruct (objects_get_classify store topic_ acc_ U)
    as [[G None_] | (r & G & I & T & A)]; rewrite G.
  - destruct (ACL.covering store topic_ acc_) as [|first rest] eqn:C.
    + exists None. split; [reflexivity|]. split; [|reflexivity].
      intros _ rule I A. split.
      * specialize (None_ rule I). rewrite A, Z.eqb_refl, andb_true_r in None_.
        exact None_.
      * intros W.
        unfold ACL.covering in C.
        apply (proj1 (filter_nil _ _) C rule).
        unfold ACL.wildcard_rules. apply filter_In. split; [exact I|].
        now rewrite W, A, Z.eqb_refl.
    + eexists. split; [reflexivity|]. split; [discriminate|].
      intros H. exfalso.
      assert (If : In first (ACL.covering store topic_ acc_))
        by (rewrite C; now left).
      destruct (covering_in _ _ _ _ If) as (Ir & W & A & Cv).
      destruct (H first Ir A) as [_ H2]. rewrite (H2 W) in Cv. discriminate.
  - exists (Some r). split; [reflexivity|]. split; [discriminate|].
    intros H. destruct (H r I A) as [H1 _]. congruence.
Qed.


End ResolutionFacts.

Lemma X9_resolution_returns_a_governing_rule_witness :
  In Samples.rule_sport_hash (ACL.rules Samples.store_sport)
  /\ ACL.acc Samples.rule_sport_hash = ACL.PROTO_MQTT_ACC_PUB
  /\ (ACL.on_topic Samples.sport Samples.rule_sport_hash = true
      \/ Topic.wildcard (ACL.topic Samples.rule_sport_hash) = true
         /\ Topic.__contains__ (ACL.topic Samples.rule_sport_hash)
              (Topic.Obj_Topic Samples.sport) = true).
Proof.
  apply (proj1 (X9_resolution_returns_a_governing_rule Examples.grammar_validator
                  Samples.store_sport ACL.PROTO_MQTT_ACC_PUB Samples.rule_sport_hash)
           Samples.sport Samples.store_sport).
  reflexivity.
Defined.

Lemma X10_no_rule_exactly_when_none_governs_witness :
  exists answer,
    ACL.get_acl Examples.grammar_validator Samples.store_sport
      (Topic.Obj_Topic Samples.sport) ACL.PROTO_MQTT_ACC_SUS
    = (Samples.store_sport, Ok answer)
    /\ (answer = None
        <-> forall rule, In rule (ACL.rules Samples.store_sport) ->
              ACL.acc rule = ACL.PROTO_MQTT_ACC_SUS ->
              ACL.on_topic Samples.sport rule = false
              /\ (Topic.wildcard (ACL.topic rule) = true ->
                  Topic.__contains__ (ACL.topic rule) (Topic.Obj_Topic Samples.sport)
                  = false)).
Proof.
  apply (X10_no_rule_exactly_when_none_governs Examples.grammar_validator
           Samples.store_sport Samples.sport ACL.PROTO_MQTT_ACC_SUS).
  unfold Invariants.unique_together. simpl. repeat constructor. simpl. tauto.
Defined.

(** * The topic table under [save] and [get_or_create] *)

Section TopicTable.
Import Protocol PyStr Invariants Tables.

Variable TopicValidator : string -> bool.

Lemma NoDup_snoc {A : Type} (l : list A) (x : A) :
  NoDup l -> ~ In x l -> NoDup (l ++ [x]).
Proof.
  induction l as [|y l IH]; intros ND NI; simpl.
  - constructor; [tauto | constructor].
  - inversion ND as [|? ? NIy NDl]; subst. constructor.
    + intros I. apply in_app_or in I as [I | [-> | []]]; [tauto|].
      apply NI. now left.
    + apply IH; [exact NDl|]. intros I. apply NI. now right.
Qed.

Lemma next_pk_fresh (objects : list Topic.t) (row : Topic.t) (k : Z) :
  In row objects -> Topic.pk row = Some k -> (k < Topic.next_pk objects)%Z.
Proof.
  unfold Topic.next_pk. induction objects as [|r rest IH]; intros I E; [destruct I|].
  cbn [fold_right]. destruct I as [-> | I].
  - rewrite E. lia.
  - specialize (IH I E). destruct (Topic.pk r); lia.
Qed.

Lemma same_pk_eq (a b : Topic.t) :
  Topic.same_pk a b = true <-> exists k, Topic.pk a = Some k /\ Topic.pk b = Some k.
Proof.
  unfold Topic.same_pk, Topic.pk_is.
  destruct (Topic.pk a) as [k|], (Topic.pk b) as [k'|]; split;
    try discriminate; try (intros (x & H1 & H2); discriminate).
  - intros H. apply Z.eqb_eq in H. subst. eauto.
  - intros (x & H1 & H2). injection H1 as <-. injection H2 as <-. apply Z.eqb_refl.
Qed.

(** What a save of all fields that goes through has checked and written. *)
Lemma save_cases (objects : list Topic.t) (self saved : Topic.t)
    (objects' : list Topic.t) :
  Topic.save TopicValidator objects self None = Ok (saved, objects') ->
  Topic.name saved = Topic.name self
  /\ (forall row, In row objects -> Topic.same_pk self row = false ->
        Topic.name row <> Topic.name self)
  /\ (Topic.pk saved = Topic.pk self
      /\ objects' = map (fun row => if Topic.same_pk saved row then saved else row)
                        objects
      \/ existsb (Topic.same_pk self) objects = false
         /\ objects' = (objects ++ [saved])%list
         /\ Topic.pk saved = Some (match Topic.pk self with
                                   | Some k => k
                                   | None => Topic.next_pk objects
                                   end)).
Proof.
  unfold Topic.save, Topic.secure_save. cbn [Topic.recompute].
  set (self' := Topic.mk _ _ _ (Topic.is_dollar _)).
  destruct (Topic.full_clean TopicValidator objects self') eqn:F; [|discriminate].
  assert (Names : forall row, In row objects -> Topic.same_pk self row = false ->
                    Topic.name row <> Topic.name self).
  { intros row I S. unfold Topic.full_clean in F.
    apply andb_true_iff in F as [_ F].
    rewrite forallb_forall in F. specialize (F row I).
    change (Topic.same_pk self' row) with (Topic.same_pk self row) in F.
    rewrite S in F. cbn [orb] in F. apply negb_true_iff in F.
    now apply String.eqb_neq in F. }
  unfold Topic.model_save.
  change (existsb (Topic.same_pk self') objects)
    with (existsb (Topic.same_pk self) objects).
  destruct (existsb (Topic.same_pk self) objects) eqn:E; intros H;
    injection H as <- <-; (split; [reflexivity | split; [exact Names|]]).
  - left. split; reflexivity.
  - right. split; [reflexivity | split; reflexivity].
Qed.

Lemma replaced_keys (saved : Topic.t) (objects : list Topic.t) :
  map Topic.pk (map (fun row => if Topic.same_pk saved row then saved else row) objects)
  = map Topic.pk objects.
Proof.
  rewrite map_map. apply map_ext. intros row.
  destruct (Topic.same_pk saved row) eqn:S; [|reflexivity].
  apply same_pk_eq in S as (k & -> & ->). reflexivity.
Qed.

Lemma replaced_names (saved : Topic.t) : forall objects : list Topic.t,
  NoDup (map Topic.pk objects) -> NoDup (map Topic.name objects) ->
  (forall row, In row objects -> Topic.same_pk saved row = false ->
     Topic.name row <> Topic.name saved) ->
  NoDup (map Topic.name
           (map (fun row => if Topic.same_pk saved row then saved else row) objects)).
Proof.
  induction objects as [|r rest IH]; intros NDk NDn Names; [constructor|].
  simpl in NDk, NDn. inversion NDk as [|? ? NIk NDk']; subst.
  inversion NDn as [|? ? NIn NDn']; subst.
  assert (IHrest := IH NDk' NDn' (fun row I => Names row (or_intror I))).
  cbn [map]. destruct (Topic.same_pk saved r) eqn:S.
  - assert (Rest : forall x, In x rest -> Topic.same_pk saved x = false).
    { intros x Ix. destruct (Topic.same_pk saved x) eqn:Sx; [|reflexivity].
      exfalso. apply NIk.
      apply same_pk_eq in S as (k & Es' & Er). apply same_pk_eq in Sx as (k' & Es & Ex).
      rewrite Es' in Es. injection Es as <-.
      rewrite Er, <- Ex. now apply in_map. }
    assert (Same : map (fun row => if Topic.same_pk saved row then saved else row) rest
                   = rest).
    { rewrite <- (map_id rest) at 2. apply map_ext_in. intros x Ix.
      now rewrite (Rest x Ix). }
    rewrite Same. constructor; [|exact NDn'].
    intros I. apply in_map_iff in I as (x & Ex & Ix).
    apply (Names x (or_intror Ix) (Rest x Ix)). exact Ex.
  - constructor; [|exact IHrest].
    intros I. apply in_map_iff in I as (y & Ey & Iy).
    apply in_map_iff in Iy as (x & <- & Ix).
    destruct (Topic.same_pk saved x).
    + apply (Names r (or_introl eq_refl) S). now symmetry.
    + apply NIn. rewrite <- Ey. now apply in_map.
Qed.

(** A successful save of all fields keeps names and keys unique. *)
Lemma save_keeps_unique (objects : list Topic.t) (self saved : Topic.t)
    (objects' : list Topic.t) :
  topics_unique objects ->
  Topic.save TopicValidator objects self None = Ok (saved, objects') ->
  topics_unique objects'.
Proof.
  intros [NDn NDk] H.
  destruct (save_cases _ _ _ _ H) as (En & Names & [[Ek ->] | (E & -> & Ek)]).
  - assert (S : forall row, Topic.same_pk saved row = Topic.same_pk self row)
      by (intros row; unfold Topic.same_pk; now rewrite Ek).
    split.
    + apply replaced_names; auto.
      intros row I Sr. rewrite En. apply Names; [exact I|]. now rewrite <- S.
    + now rewrite replaced_keys.
  - assert (None_ : forall row, In row objects -> Topic.same_pk self row = false).
    { intros row I. destruct (Topic.same_pk self row) eqn:S; [|reflexivity].
      assert (X : existsb (Topic.same_pk self) objects = true)
        by (apply existsb_exists; eauto).
      congruence. }
    split; rewrite map_app; apply NoDup_snoc; auto; cbn [map].
    + intros I. apply in_map_iff in I as (row & Er & Ir).
      apply (Names row Ir (None_ row Ir)). congruence.
    + intros I. apply in_map_iff in I as (row & Er & Ir).
      rewrite Ek in Er. destruct (Topic.pk self) as [k|] eqn:Ks.
      * assert (S : Topic.same_pk self row = true)
          by (apply same_pk_eq; eauto).
        rewrite (None_ row Ir) in S. discriminate.
      * pose proof (next_pk_fresh objects row _ Ir Er). lia.
Qed.

(** X11: a successful save without [update_fields] keeps the topic table
    free of duplicate names and duplicate keys. *)
Theorem X11_save_keeps_names_and_keys_unique :
  forall (objects : list Topic.t) (self saved : Topic.t) (objects' : list Topic.t),
    NoDup (map Topic.name objects) -> NoDup (map Topic.pk objects) ->
    Topic.save TopicValidator objects self None = Ok (saved, objects') ->
    NoDup (map Topic.name objects') /\ NoDup (map Topic.pk objects').
Proof.
  intros objects self saved objects' NDn NDk H.
  exact (save_keeps_unique objects self saved objects' (conj NDn NDk) H).
Qed.

Lemma topic_get_none (objects : list Topic.t) (s : string) :
  Topic.objects_get objects s = Raise DoesNotExist ->
  filter (fun row => Topic.name row =? s) objects = [].
Proof.
  unfold Topic.objects_get.
  now destruct (filter _ objects) as [|x [|y l]].
Qed.

(** A second [get_or_create] finds what the first returned. *)
Lemma get_or_create_again (objects : list Topic.t) (s : string) (row : Topic.t)
    (is_new : bool) (objects' : list Topic.t) :
  Topic.get_or_create TopicValidator objects s = (Ok (row, is_new), objects') ->
  Topic.get_or_create TopicValidator objects' s = (Ok (row, false), objects').
Proof.
  intros H. pose proof (get_or_create_effect TopicValidator objects s) as Eff.
  rewrite H in Eff. destruct is_new.
  - destruct Eff as (-> & En & _ & G). apply topic_get_none in G.
    unfold Topic.get_or_create, Topic.objects_get.
    rewrite filter_app, G. cbn [filter app]. rewrite En, String.eqb_refl.
    reflexivity.
  - destruct Eff as (-> & G). unfold Topic.get_or_create. now rewrite G.
Qed.

Lemma get_or_create_raise (objects : list Topic.t) (s : string) (e : exn)
    (objects' : list Topic.t) :
  Topic.get_or_create TopicValidator objects s = (Raise e, objects') ->
  objects' = objects.
Proof.
  intros H. pose proof (get_or_create_effect TopicValidator objects s) as Eff.
  now rewrite H in Eff.
Qed.

(** X12: on a table with unique names and keys, [get_or_create] either
    returns a row of that name, stored in the table it leaves, the table
    still unique, and a second call returns the same row as not new and
    writes nothing; or no row has the name, validation fails, and it raises
    [ValidationError] leaving the table as it was.  It never raises
    [MultipleObjectsReturned]. *)
Theorem X12_get_or_create_round_trip :
  forall (objects : list Topic.t) (s : string),
    topics_unique objects ->
    (exists row is_new objects',
        Topic.get_or_create TopicValidator objects s = (Ok (row, is_new), objects')
        /\ topics_unique objects'
        /\ In row objects' /\ Topic.name row = s
        /\ (is_new = false -> objects' = objects)
        /\ Topic.get_or_create TopicValidator objects' s = (Ok (row, false), objects'))
    \/ (Topic.get_or_create TopicValidator objects s = (Raise ValidationError, objects)
        /\ Topic.objects_get objects s = Raise DoesNotExist).
Proof.
  intros objects s U.
  destruct (Topic.get_or_create TopicValidator objects s) as [[[row is_new]|e] objects']
    eqn:H.
  - left. exists row, is_new, objects'.
    pose proof (get_or_create_again _ _ _ _ _ H) as Again.
    pose proof (get_or_create_effect TopicValidator objects s) as Eff.
    rewrite H in Eff. split; [reflexivity|]. destruct is_new.
    + destruct Eff as (E' & En & _ & G).
      assert (S : Topic.save TopicValidator objects (Topic.of_name s) None
                  = Ok (row, objects')).
      { revert H. unfold Topic.get_or_create. rewrite G.
        destruct (Topic.save TopicValidator objects (Topic.of_name s) None)
          as [[c o]|]; [|discriminate]. intros X. now injection X as -> ->. }
      repeat split; auto.
      * apply (save_keeps_unique _ _ _ _ U S).
      * apply (save_keeps_unique _ _ _ _ U S).
      * rewrite E'. apply in_or_app. right. now left.
      * discriminate.
    + destruct Eff as (-> & G). destruct (topic_get_ok _ _ _ G) as [I En].
      repeat split; auto; apply U.
  - right. pose proof (get_or_create_raise _ _ _ _ H) as ->.
    revert H. unfold Topic.get_or_create, Topic.objects_get.
    destruct U as [NDn _].
    destruct (filter_at_most_one Topic.name (fun row => Topic.name row =? s) s
                objects NDn) as [E | [r E]].
    + intros r. apply String.eqb_eq.
    + rewrite E.
      unfold Topic.save, Topic.secure_save. cbn [Topic.recompute].
      destruct (Topic.full_clean _ _ _).
      * unfold Topic.model_save. destruct (existsb _ objects); discriminate.
      * intros X. injection X as <-. split; reflexivity.
    + rewrite E. discriminate.
Qed.

(** X13: [get_acl] is idempotent on the store: called again on the store
    a first call left, with the same arguments, it leaves that store as it
    is and answers (or raises) the same. *)
Theorem X13_resolution_is_idempotent :
  forall (store : ACL.Store) (topic_ : Topic.obj) (acc_ : Z),
    ACL.get_acl TopicValidator
      (fst (ACL.get_acl TopicValidator store topic_ acc_)) topic_ acc_
    = ACL.get_acl TopicValidator store topic_ acc_.
Proof.
  intros store [o|s|s|] acc_; try reflexivity.
  - unfold ACL.get_acl.
    destruct (Topic.get_or_create TopicValidator (ACL.topics store) s)
      as [[[found is_new]|e] topics'] eqn:H; cbn [fst ACL.topics ACL.rules].
    + now rewrite (get_or_create_again _ _ _ _ _ H).
    + pose proof (get_or_create_raise _ _ _ _ H) as ->. now rewrite H.
  - unfold ACL.get_acl.
    destruct (Topic.get_or_create TopicValidator (ACL.topics store) s)
      as [[[found is_new]|e] topics'] eqn:H; cbn [fst ACL.topics ACL.rules].
    + now rewrite (get_or_create_again _ _ _ _ _ H).
    + pose proof (get_or_create_raise _ _ _ _ H) as ->. now rewrite H.
Qed.

End TopicTable.

Lemma X11_save_keeps_names_and_keys_unique_witness :
  NoDup (map Topic.name Examples.table_saved)
  /\ NoDup (map Topic.pk Examples.table_saved).
Proof.
  apply (X11_save_keeps_names_and_keys_unique Examples.grammar_validator
           Examples.table Examples.stale_row Examples.fresh_row Examples.table_saved).
  - simpl. repeat constructor; simpl; intuition discriminate.
  - simpl. repeat constructor; simpl; intuition discriminate.
  - reflexivity.
Defined.

Lemma X12_get_or_create_round_trip_witness :
  (exists row is_new objects',
      Topic.get_or_create Examples.grammar_validator Samples.topic_table "sport/golf"
      = (Ok (row, is_new), objects')
      /\ Tables.topics_unique objects'
      /\ In row objects' /\ Topic.name row = "sport/golf"
      /\ (is_new = false -> objects' = Samples.topic_table)
      /\ Topic.get_or_create Examples.grammar_validator objects' "sport/golf"
         = (Ok (row, false), objects'))
  \/ (Topic.get_or_create Examples.grammar_validator Samples.topic_table "sport/golf"
      = (Raise ValidationError, Samples.topic_table)
      /\ Topic.objects_get Samples.topic_table "sport/golf" = Raise DoesNotExist).
Proof.
  apply (X12_get_or_create_round_trip Examples.grammar_validator
           Samples.topic_table "sport/golf").
  split; simpl; repeat constructor; simpl; intuition discriminate.
Defined.

(** * Secrets and the default policy *)

Section SecretsAndDefaults.
Import Protocol PyStr Invariants Tables.

Variable check_password : string -> string -> bool.

(** X14: a rule with a stored secret is not public.  When a secret is
    supplied, the answer is the verification of that secret against the
    stored one, whoever the user and whatever [allow] says; when none is
    supplied, the principal set decides as if no secret were stored: a
    member gets [allow], any other user its negation, no user a denial. *)
Theorem X14_supplied_secret_decides_alone :
  forall (rule : ACL.t) (stored : string),
    ACL.password rule = Some stored -> stored <> "" ->
    ACL.is_public rule = false
    /\ (forall user raw, raw <> "" ->
          ACL.has_permission check_password rule user (Some raw)
          = check_password raw stored)
    /\ (forall user pw, ACL.str_truth pw = false ->
          ACL.has_permission check_password rule user pw
          = match user with
            | Some u => if belongs rule u then ACL.allow rule
                        else negb (ACL.allow rule)
            | None => false
            end).
Proof.
  intros rule stored E N.
  assert (P : ACL.is_public rule = false).
  { unfold ACL.is_public. rewrite E. destruct stored; [congruence|].
    now rewrite andb_false_r. }
  split; [exact P | split].
  - intros user raw Nr. unfold ACL.has_permission. rewrite P, E.
    destruct stored; [congruence|]. destruct raw; [congruence | reflexivity].
  - intros user pw S. unfold ACL.has_permission, belongs. rewrite P, E.
    destruct stored; [congruence|].
    destruct pw as [[|c raw]|]; try discriminate;
      destruct user as [u|]; try reflexivity;
      destruct (ACL.user_in_users rule u), (ACL.group_match rule u); reflexivity.
Qed.

(** X15: when the setting [MQTT_ACL_ALLOW_ANONIMOUS] exists, an
    anonymous principal without secret whom the settings deny is denied
    whatever the store holds: the broadcast rule on [#] is not consulted,
    and nothing is raised. *)
Theorem X15_denied_anonymous_never_reaches_broadcast_rule :
  forall (settings : ACL.Settings) (store : ACL.Store) (acc_ : Z)
         (user : option ACL.User) (pw : option string),
    ACL.MQTT_ACL_ALLOW_ANONIMOUS settings <> None ->
    anonymous user = true ->
    default_allow settings user = false ->
    ACL.str_truth pw = false ->
    ACL.get_default check_password settings store acc_ user pw = Ok false.
Proof.
  intros settings store acc_ user pw A An D S.
  unfold ACL.get_default. unfold default_allow, anonymous in *.
  destruct (ACL.MQTT_ACL_ALLOW_ANONIMOUS settings) as [a|]; [|congruence].
  rewrite An in *. rewrite D, S. reflexivity.
Qed.

Lemma acl_get_filter (store : ACL.Store) (topic_ : Topic.t) (acc_ : Z) (rule : ACL.t) :
  unique_together store -> In rule (ACL.rules store) ->
  ACL.on_topic topic_ rule = true -> ACL.acc rule = acc_ ->
  filter (fun r => Z.eqb (ACL.acc r) acc_) (filter (ACL.on_topic topic_) (ACL.rules store))
  = [rule].
Proof.
  intros U I T A. rewrite filter_filter.
  pose proof (exact_rule_found store topic_ acc_ rule U I T A) as G.
  unfold ACL.objects_get in G.
  destruct (filter _ (ACL.rules store)) as [|x [|y l]]; try discriminate.
  now injection G as ->.
Qed.

(** X16: past the early denial, [get_default] answers with the
    configured default when no topic is named [#], or when no rule for the
    access kind is on that topic; and when the rule table holds a rule for
    the access kind (subscribe or publish) on the stored topic [#], with
    what that rule decides for the user and secret. *)
Theorem X16_broadcast_rule_or_configured_default :
  forall (settings : ACL.Settings) (store : ACL.Store) (acc_ : Z)
         (user : option ACL.User) (pw : option string),
    (ACL.MQTT_ACL_ALLOW_ANONIMOUS settings = None
     \/ anonymous user = false
     \/ default_allow settings user = true
     \/ ACL.str_truth pw = true) ->
    (Topic.objects_get (ACL.topics store) "#" = Raise DoesNotExist ->
     ACL.get_default check_password settings store acc_ user pw
     = Ok (default_allow settings user))
    /\ (forall broadcast_topic,
        Topic.objects_get (ACL.topics store) "#" = Ok broadcast_topic ->
        (forall r, In r (ACL.rules store) ->
           ACL.on_topic broadcast_topic r && Z.eqb (ACL.acc r) acc_ = false) ->
        ACL.get_default check_password settings store acc_ user pw
        = Ok (default_allow settings user))
    /\ (forall broadcast_topic rule,
        Topic.objects_get (ACL.topics store) "#" = Ok broadcast_topic ->
        unique_together store -> In rule (ACL.rules store) ->
        ACL.on_topic broadcast_topic rule = true -> ACL.acc rule = acc_ ->
        acc_ = ACL.PROTO_MQTT_ACC_SUS \/ acc_ = ACL.PROTO_MQTT_ACC_PUB ->
        ACL.get_default check_password settings store acc_ user pw
        = Ok (ACL.has_permission check_password rule user pw)).
Proof.
  intros settings store acc_ user pw Late.
  assert (Early :
            match ACL.MQTT_ACL_ALLOW_ANONIMOUS settings with
            | Some _ => anonymous user && negb (default_allow settings user)
                        && negb (ACL.str_truth pw)
            | None => false
            end = false).
  { destruct (ACL.MQTT_ACL_ALLOW_ANONIMOUS settings) as [a|] eqn:A; [|reflexivity].
    destruct Late as [L | [L | [L | L]]]; try discriminate; rewrite L;
      now rewrite ?andb_false_r. }
  assert (Shape : ACL.get_default check_password settings store acc_ user pw
            = match Topic.objects_get (ACL.topics store) "#" with
              | Raise DoesNotExist => Ok (default_allow settings user)
              | Raise e => Raise e
              | Ok broadcast_topic =>
                  if existsb (Z.eqb acc_) ACL.PROTO_MQTT_ACC then
                    match filter (fun r => Z.eqb (ACL.acc r) acc_)
                                 (filter (ACL.on_topic broadcast_topic)
                                         (ACL.rules store)) with
                    | [] => Ok (default_allow settings user)
                    | [broadcast_acl] =>
                        Ok (ACL.has_permission check_password broadcast_acl user pw)
                    | _ => Raise MultipleObjectsReturned
                    end
                  else Ok (default_allow settings user)
              end).
  { unfold ACL.get_default.
    unfold default_allow, anonymous in *.
    destruct (ACL.MQTT_ACL_ALLOW_ANONIMOUS settings) as [a|];
      [rewrite Early|]; reflexivity. }
  rewrite Shape. split; [|split].
  - now intros ->.
  - intros bt -> None_.
    rewrite filter_filter, (proj2 (filter_nil _ _) None_).
    now destruct (existsb (Z.eqb acc_) ACL.PROTO_MQTT_ACC).
  - intros bt rule -> U I T A Acc.
    rewrite (acl_get_filter store bt acc_ rule U I T A).
    destruct Acc as [-> | ->]; reflexivity.
Qed.

End SecretsAndDefaults.

Lemma X14_supplied_secret_decides_alone_witness :
  ACL.has_permission Samples.only_pw Samples.rule_secret (Some Samples.bob) (Some "pw")
  = true
  /\ ACL.has_permission Samples.only_pw Samples.rule_secret (Some Samples.alice)
       (Some "guess") = false
  /\ ACL.has_permission Samples.only_pw Samples.rule_secret (Some Samples.bob) None
     = true.
Proof.
  destruct (X14_supplied_secret_decides_alone Samples.only_pw Samples.rule_secret
              "hash" eq_refl ltac:(discriminate)) as (_ & H2 & H3).
  split; [|split].
  - rewrite (H2 (Some Samples.bob) "pw") by discriminate. reflexivity.
  - rewrite (H2 (Some Samples.alice) "guess") by discriminate. reflexivity.
  - rewrite (H3 (Some Samples.bob) None eq_refl). reflexivity.
Defined.

Lemma X15_denied_anonymous_never_reaches_broadcast_rule_witness :
  ACL.get_default Samples.only_pw (ACL.mkSettings (Some true) (Some false))
    Samples.store_broadcast ACL.PROTO_MQTT_ACC_PUB (Some Samples.nobody) None
  = Ok false.
Proof.
  apply (X15_denied_anonymous_never_reaches_broadcast_rule Samples.only_pw);
    [discriminate | reflexivity | reflexivity | reflexivity].
Defined.

Lemma X16_broadcast_rule_or_configured_default_witness :
  ACL.get_default Samples.only_pw (ACL.mkSettings (Some false) None)
    Samples.store_broadcast ACL.PROTO_MQTT_ACC_PUB None None
  = Ok (ACL.has_permission Samples.only_pw Samples.rule_broadcast None None)
  /\ ACL.get_default Samples.only_pw (ACL.mkSettings (Some true) None)
       Samples.store_sport ACL.PROTO_MQTT_ACC_PUB None None
     = Ok true.
Proof.
  split.
  - apply (proj2 (proj2 (X16_broadcast_rule_or_configured_default Samples.only_pw
                           (ACL.mkSettings (Some false) None) Samples.store_broadcast
                           ACL.PROTO_MQTT_ACC_PUB None None (or_introl eq_refl)))
             Samples.all_topics Samples.rule_broadcast).
    + reflexivity.
    + unfold Invariants.unique_together. simpl. repeat constructor. simpl. tauto.
    + now left.
    + reflexivity.
    + reflexivity.
    + now right.
  - apply (proj1 (X16_broadcast_rule_or_configured_default Samples.only_pw
                    (ACL.mkSettings (Some true) None) Samples.store_sport
                    ACL.PROTO_MQTT_ACC_PUB None None (or_introl eq_refl))).
    reflexivity.
Defined.

(** * Client identifiers *)

Section ClientIds.
Import PyStr.

Variable ClientIdValidator : bool -> string -> bool.

Lemma client_public (self : ClientId.t) :
  ClientId.is_public self = true
  <-> ClientId.users self = [] /\ ClientId.groups self = [].
Proof.
  unfold ClientId.is_public.
  destruct (ClientId.users self), (ClientId.groups self); simpl; split;
    try discriminate; try tauto; intros [H1 H2]; discriminate.
Qed.

Lemma client_user_listed (self : ClientId.t) (u : ACL.User) :
  ClientId.user_listed self u = true
  <-> exists k, ACL.user_pk u = Some k /\ In k (ClientId.users self).
Proof.
  unfold ClientId.user_listed. destruct (ACL.user_pk u) as [k|].
  - rewrite existsb_exists. split.
    + intros (x & I & E). apply Z.eqb_eq in E. subst. eauto.
    + intros (x & E & I). injection E as <-. exists k. split; [exact I|].
      apply Z.eqb_refl.
  - split; [discriminate | intros (k & E & _); discriminate].
Qed.

Lemma client_shared_groups (self : ClientId.t) (u : ACL.User) :
  (0 <? ClientId.shared_groups self u)%nat = true
  <-> exists g, In g (ClientId.groups self) /\ In g (ACL.user_groups u).
Proof.
  unfold ClientId.shared_groups.
  destruct (filter _ (ClientId.groups self)) as [|g l] eqn:F.
  - split; [discriminate|]. intros (g & I1 & I2). exfalso.
    assert (X : In g (filter (fun g => existsb (Z.eqb g) (ACL.user_groups u))
                             (ClientId.groups self))).
    { apply filter_In. split; [exact I1|]. apply existsb_exists. exists g.
      split; [exact I2 | apply Z.eqb_refl]. }
    rewrite F in X. destruct X.
  - split; [|reflexivity]. intros _.
    assert (X : In g (filter (fun g => existsb (Z.eqb g) (ACL.user_groups u))
                             (ClientId.groups self))) by (rewrite F; now left).
    apply filter_In in X as [I1 E]. apply existsb_exists in E as (x & I2 & E).
    apply Z.eqb_eq in E. subst. eauto.
Qed.

(** X17: a client identifier permits a user exactly when it is public
    (no user and no group attached), or the user is supplied and is one of
    the attached users or shares a group with it; so attaching the first
    user or group withdraws the permission from everybody else, and from
    the absent user. *)
Theorem X17_client_id_permission :
  forall (self : ClientId.t) (user : option ACL.User),
    ClientId.has_permission self user = true
    <-> (ClientId.users self = [] /\ ClientId.groups self = [])
        \/ exists u, user = Some u
             /\ ((exists k, ACL.user_pk u = Some k /\ In k (ClientId.users self))
                 \/ exists g, In g (ClientId.groups self)
                              /\ In g (ACL.user_groups u)).
Proof.
  intros self user. unfold ClientId.has_permission.
  rewrite <- client_public.
  destruct (ClientId.is_public self) eqn:P; cbn [negb].
  - tauto.
  - destruct user as [u|].
    + destruct (ClientId.user_listed self u) eqn:L.
      * apply client_user_listed in L. split; [|reflexivity].
        intros _. right. exists u. auto.
      * destruct (0 <? ClientId.shared_groups self u)%nat eqn:S.
        -- apply client_shared_groups in S. split; [|reflexivity].
           intros _. right. exists u. auto.
        -- split; [discriminate|].
           intros [H | (u' & E & [H | H])]; [discriminate| |].
           ++ injection E as <-. apply client_user_listed in H. congruence.
           ++ injection E as <-. apply client_shared_groups in H. congruence.
    + split; [discriminate|]. intros [H | (u & E & _)]; discriminate.
Qed.

(** X18: unless the setting [MQTT_ALLOW_EMPTY_CLIENT_ID] is set and
    true, saving a client identifier with an empty name raises
    [ValidationError] and writes nothing, whatever [update_fields]; and a
    table without empty names has none after any save that goes through. *)
Theorem X18_client_id_never_stored_empty :
  forall (setting : option bool) (objects : list ClientId.t) (self : ClientId.t)
         (update_fields : option (list string)),
    ClientId.empty_allowed setting = false ->
    (ClientId.name self = "" ->
     ClientId.save ClientIdValidator setting objects self update_fields
     = Raise ValidationError)
    /\ (forall saved objects',
        ClientId.save ClientIdValidator setting objects self update_fields
        = Ok (saved, objects') ->
        (forall row, In row objects -> ClientId.name row <> "") ->
        ClientId.name saved <> ""
        /\ forall row, In row objects' -> ClientId.name row <> "").
Proof.
  intros setting objects self update_fields A. split.
  - intros E. unfold ClientId.save, ClientId.full_clean, ClientId.clean.
    rewrite A, E. cbn. reflexivity.
  - intros saved objects'. unfold ClientId.save.
    destruct (ClientId.full_clean ClientIdValidator setting objects self) eqn:F;
      [|discriminate].
    assert (N : ClientId.name self <> "").
    { unfold ClientId.full_clean in F. apply andb_true_iff in F as [F _].
      apply andb_true_iff in F as [_ F]. unfold ClientId.clean in F.
      rewrite A in F. cbn [negb andb] in F. apply negb_true_iff in F.
      now apply String.eqb_neq. }
    assert (U : forall fields row, ClientId.name row <> "" ->
                  ClientId.name (ClientId.update_row fields self row) <> "").
    { intros fields row Nr. unfold ClientId.update_row.
      destruct (ClientId.same_pk self row); [|exact Nr]. cbn [ClientId.name].
      now destruct (existsb (String.eqb "name") fields). }
    unfold ClientId.model_save. intros H All.
    destruct update_fields as [[|f fields]|].
    + injection H as <- <-. auto.
    + destruct (ClientId.pk self); [|discriminate].
      destruct (existsb (ClientId.same_pk self) objects); [|discriminate].
      injection H as <- <-. split; [exact N|].
      intros row I. apply in_map_iff in I as (r & <- & Ir). apply U. auto.
    + destruct (existsb (ClientId.same_pk self) objects).
      * injection H as <- <-. split; [exact N|].
        intros row I. apply in_map_iff in I as (r & <- & Ir). apply U. auto.
      * injection H as <- <-. split; [exact N|].
        intros row I. apply in_app_or in I as [I | [<- | []]]; auto.
Qed.

End ClientIds.

Lemma X18_client_id_never_stored_empty_witness :
  ClientId.save (fun _ _ => true) None Samples.client_table
    (ClientId.mk None "" [] []) None = Raise ValidationError
  /\ (ClientId.name (ClientId.mk (Some 2%Z) "sensor-2" [] []) <> ""
      /\ forall row,
          In row (Samples.client_table ++ [ClientId.mk (Some 2%Z) "sensor-2" [] []])%list ->
          ClientId.name row <> "").
Proof.
  split.
  - apply (proj1 (X18_client_id_never_stored_empty (fun _ _ => true) None
                    Samples.client_table (ClientId.mk None "" [] []) None eq_refl)).
    reflexivity.
  - apply (proj2 (X18_client_id_never_stored_empty (fun _ _ => true) None
                    Samples.client_table (ClientId.mk None "sensor-2" [] []) None
                    eq_refl)).
    + reflexivity.
    + intros row [<- | []]. discriminate.
Defined.

(** * Names and instances *)

Section NamesAndInstances.

Variable TopicValidator : string -> bool.

(** X19: resolving the name of a stored topic is resolving that topic:
    when exactly one stored topic has the name, [get_acl] on the string
    writes nothing and answers as on the stored instance. *)
Theorem X19_stored_name_resolves_as_its_topic :
  forall (store : ACL.Store) (s : string) (stored : Topic.t) (acc_ : Z),
    Topic.objects_get (ACL.topics store) s = Ok stored ->
    ACL.get_acl TopicValidator store (Topic.Obj_str s) acc_
    = ACL.get_acl TopicValidator store (Topic.Obj_Topic stored) acc_.
Proof.
  intros store s stored acc_ G.
  unfold ACL.get_acl, Topic.get_or_create. rewrite G. now rewrite store_eta.
Qed.

End NamesAndInstances.

Lemma X19_stored_name_resolves_as_its_topic_witness :
  ACL.get_acl Examples.grammar_validator Samples.store_sport
    (Topic.Obj_str "sport/tennis") ACL.PROTO_MQTT_ACC_PUB
  = ACL.get_acl Examples.grammar_validator Samples.store_sport
      (Topic.Obj_Topic Samples.sport) ACL.PROTO_MQTT_ACC_PUB.
Proof.
  apply (X19_stored_name_resolves_as_its_topic Examples.grammar_validator
           Samples.store_sport "sport/tennis" Samples.sport ACL.PROTO_MQTT_ACC_PUB).
  reflexivity.
Defined.
